(** * model_catalogs: availability and aggregation engine

    A shallow embedding of the parts of [model_catalogs/utils.py] and
    [model_catalogs/model_catalogs.py] that decode NOAA OFS file names,
    select the files of a day, walk THREDDS catalog references, decide
    cache freshness and plan a date range.

    Conventions of the embedding:
    - a Python [str] is a [list ascii] ([str]); literals are written with
      the notation [$"..."];
    - a [pd.Timestamp] is its [value]: nanoseconds since 1970-01-01 as a
      [Z]; a [pd.Timedelta] is a [Z] number of nanoseconds;
    - a Python exception is a value of [exn]; code that may raise returns
      [result A]. *)

From Stdlib Require Import ZArith String Ascii List Bool Lia Permutation Sorted.
Import ListNotations.
Open Scope Z_scope.

(* ================================================================== *)
(** ** Python values and exceptions *)
(* ================================================================== *)

Definition str := list ascii.

Notation "$ s" := (list_ascii_of_string s%string) (at level 1, s at level 0, format "$ s").

(** The exceptions the modelled code can raise. [SelectionError] is the
    [ValueError] raised explicitly by [agg_for_date]; [NotInList] is the
    [ValueError] of [list.index]; [DateParseError] is the [ValueError] of
    [pd.to_datetime]; [OutOfBounds] is pandas' [OutOfBoundsDatetime] (or
    the [OverflowError] of Timestamp arithmetic). *)
Inductive exn : Type :=
| DateParseError
| OutOfBounds
| IndexError
| UnboundLocalError
| KeyError
| SelectionError
| NotInList
| TypeError.

Inductive result (A : Type) : Type :=
| Ok (a : A)
| Raise (e : exn).
Arguments Ok {A} a.
Arguments Raise {A} e.

Definition bind {A B} (r : result A) (k : A -> result B) : result B :=
  match r with
  | Ok a => k a
  | Raise e => Raise e
  end.

Notation "x <- c1 ;; c2" := (bind c1 (fun x => c2))
  (at level 61, c1 at next level, right associativity).

Definition of_option {A} (e : exn) (o : option A) : result A :=
  match o with
  | Some a => Ok a
  | None => Raise e
  end.

(** [[k x for x in l]] when [k] may raise: the first exception wins. *)
Fixpoint mapM {A B} (k : A -> result B) (l : list A) : result (list B) :=
  match l with
  | [] => Ok []
  | x :: l' => y <- k x ;; ys <- mapM k l' ;; Ok (y :: ys)
  end.

(* ================================================================== *)
(** ** Strings *)
(* ================================================================== *)

Definition str_eqb (a b : str) : bool :=
  if list_eq_dec ascii_dec a b then true else false.

Definition is_digit (c : ascii) : bool :=
  ((48 <=? N_of_ascii c) && (N_of_ascii c <=? 57))%N.

Definition digit_val (c : ascii) : Z := Z.of_N (N_of_ascii c) - 48.

Definition digit_char (d : Z) : ascii := ascii_of_N (Z.to_N (d + 48)).

(** [int(s)] for a string of decimal digits. *)
Definition int_of_digits (s : str) : Z :=
  fold_left (fun acc c => 10 * acc + digit_val c) s 0.

(** Zero-padded decimal fields, as [strftime] prints them. *)
Definition pad2 (n : Z) : str := [digit_char (n / 10 mod 10); digit_char (n mod 10)].
Definition pad3 (n : Z) : str := digit_char (n / 100 mod 10) :: pad2 n.
Definition pad4 (n : Z) : str := digit_char (n / 1000 mod 10) :: pad3 n.

Fixpoint is_prefix (p s : str) : bool :=
  match p, s with
  | [], _ => true
  | _ :: _, [] => false
  | a :: p', b :: s' => if Ascii.eqb a b then is_prefix p' s' else false
  end.

(** [sub in s]. *)
Fixpoint contains (sub s : str) : bool :=
  if is_prefix sub s then true
  else match s with
       | [] => false
       | _ :: s' => contains sub s'
       end.

(** [s.split(sep)] for a one-character separator: [cur] is the field
    being read, reversed. *)
Fixpoint split_aux (sep : ascii) (cur : str) (s : str) : list str :=
  match s with
  | [] => [rev cur]
  | c :: s' =>
      if Ascii.eqb c sep then rev cur :: split_aux sep [] s'
      else split_aux sep (c :: cur) s'
  end.

Definition split (sep : ascii) (s : str) : list str := split_aux sep [] s.

(** [sep.join(parts)]. *)
Fixpoint join (sep : str) (parts : list str) : str :=
  match parts with
  | [] => []
  | [p] => p
  | p :: ps => p ++ sep ++ join sep ps
  end.

(** [s.replace(old, new)]: non-overlapping occurrences, left to right;
    [skip] counts the characters of a replaced occurrence still to drop. *)
Fixpoint replace_aux (old new : str) (skip : nat) (s : str) : str :=
  match s with
  | [] => []
  | c :: s' =>
      match skip with
      | S k => replace_aux old new k s'
      | O =>
          if is_prefix old s
          then new ++ replace_aux old new (length old - 1) s'
          else c :: replace_aux old new 0 s'
      end
  end.

Definition replace (old new s : str) : str := replace_aux old new 0 s.

(** Python compares strings by code point, lexicographically. *)
Fixpoint str_leb (a b : str) : bool :=
  match a, b with
  | [], _ => true
  | _ :: _, [] => false
  | x :: a', y :: b' =>
      if (N_of_ascii x <? N_of_ascii y)%N then true
      else if (N_of_ascii y <? N_of_ascii x)%N then false
      else str_leb a' b'
  end.

(* ================================================================== *)
(** ** Lists: sorted, index, pop, slices *)
(* ================================================================== *)

Section Sorting.
Context {A K : Type} (key : A -> K) (leb : K -> K -> bool).

(** [x] goes before the first element whose key is not smaller, so that
    equal keys keep their input order: [sorted] is stable. *)
Fixpoint insert_by (x : A) (l : list A) : list A :=
  match l with
  | [] => [x]
  | y :: l' => if leb (key x) (key y) then x :: l else y :: insert_by x l'
  end.

Fixpoint sorted_by (l : list A) : list A :=
  match l with
  | [] => []
  | x :: l' => insert_by x (sorted_by l')
  end.
End Sorting.

(** [sorted(l)] on strings. *)
Definition sorted (l : list str) : list str := sorted_by (fun s => s) str_leb l.

(** [l.index(x)]. *)
Fixpoint index_of (x : str) (l : list str) : option nat :=
  match l with
  | [] => None
  | y :: l' => if str_eqb y x then Some O else option_map S (index_of x l')
  end.

(** [l.pop(i)] for an index in range, seen as the remaining list. *)
Fixpoint pop (i : nat) (l : list str) : list str :=
  match i, l with
  | _, [] => []
  | O, _ :: l' => l'
  | S i', y :: l' => y :: pop i' l'
  end.

(** [l.count(x)]. *)
Definition count (x : str) (l : list str) : Z :=
  Z.of_nat (length (filter (str_eqb x) l)).

(** [list(set(l))] up to order: the distinct elements. *)
Definition distinct (l : list str) : list str := nodup (list_eq_dec ascii_dec) l.

(** [l[-1]]. *)
Definition last_item {A} (l : list A) : result A :=
  match rev l with
  | [] => Raise IndexError
  | x :: _ => Ok x
  end.

(** [l[-2]]. *)
Definition second_last {A} (l : list A) : result A :=
  match rev l with
  | _ :: x :: _ => Ok x
  | _ => Raise IndexError
  end.

(* ================================================================== *)
(** ** fnmatch *)
(* ================================================================== *)

(** [fnmatch.fnmatchcase(name, pat)] for the patterns made of [*], [?]
    and literal characters, which is what every pattern written in this
    code base is made of (on POSIX [fnmatch.fnmatch] and [fnmatch.filter]
    do no case folding). A bracket expression is not interpreted: on a
    pattern that holds an opening bracket this matcher is not Python's, and
    the
    statements about patterns given by a caller assume [bracket_free]
    or [plain_day] (below). The pattern has to match the whole name: [*] tries every
    suffix of the name, shortest skip first. *)
Fixpoint fnmatch_pat (pat : str) (name : str) {struct pat} : bool :=
  match pat with
  | [] => match name with [] => true | _ => false end
  | p :: pat' =>
      if Ascii.eqb p "*" then
        (fix star (n : str) : bool :=
           if fnmatch_pat pat' n then true
           else match n with
                | [] => false
                | _ :: n' => star n'
                end) name
      else
        match name with
        | [] => false
        | c :: name' =>
            if Ascii.eqb p "?" then fnmatch_pat pat' name'
            else if Ascii.eqb p c then fnmatch_pat pat' name'
            else false
        end
  end.

Definition fnmatch (name pat : str) : bool := fnmatch_pat pat name.

(** [fnmatch.filter(names, pat)]. *)
Definition fnmatch_filter (names : list str) (pat : str) : list str :=
  filter (fun n => fnmatch n pat) names.

(* ================================================================== *)
(** ** re: the three regular expressions of the code *)
(* ================================================================== *)

(** [.] without DOTALL: any character but a newline. *)
Definition re_dot (c : ascii) : bool := negb (Ascii.eqb c "010").

(** [re.search]: the match at the leftmost position where [m] matches. *)
Fixpoint search {A} (m : str -> option A) (s : str) : option A :=
  match m s with
  | Some a => Some a
  | None =>
      match s with
      | [] => None
      | _ :: s' => search m s'
      end
  end.

(** [re.findall] for a regex whose matches are never empty: the matched
    texts, leftmost first, not overlapping. *)
Fixpoint findall (m : str -> option str) (skip : nat) (s : str) : list str :=
  match s with
  | [] => []
  | _ :: s' =>
      match skip with
      | S k => findall m k s'
      | O =>
          match m s with
          | Some w => w :: findall m (length w - 1) s'
          | None => findall m 0 s'
          end
      end
  end.

(** A regular expression that is a sequence of character classes,
    anchored at the head of [s]: the text it matches. *)
Fixpoint re_classes (classes : list (ascii -> bool)) (s : str) : option str :=
  match classes with
  | [] => Some []
  | p :: classes' =>
      match s with
      | [] => None
      | c :: s' =>
          if p c then option_map (cons c) (re_classes classes' s') else None
      end
  end.

(** [.t[0-9]{2}z.] *)
Definition re_cycle : str -> option str :=
  re_classes [re_dot; Ascii.eqb "t"; is_digit; is_digit; Ascii.eqb "z"; re_dot].

(** The class [[n,f]]: the comma is a member of it. *)
Definition is_nf (k : ascii) : bool :=
  Ascii.eqb k "n" || Ascii.eqb k "," || Ascii.eqb k "f".

(** [.[n,f][0-9]{3}.] *)
Definition re_lead : str -> option str :=
  re_classes [re_dot; is_nf; is_digit; is_digit; is_digit; re_dot].

(** [w[i:j]] for [0 <= i <= j]. *)
Definition slice (i j : nat) (w : str) : str := firstn (j - i) (skipn i w).

(* ================================================================== *)
(** ** Timestamps and the calendar *)
(* ================================================================== *)

Definition HOUR : Z := 3600 * 1000000000.
Definition DAY : Z := 24 * HOUR.

(** The values a [pd.Timestamp] can hold: a signed 64-bit count of
    nanoseconds, the smallest one being reserved for [NaT]. *)
Definition TS_MIN : Z := - 9223372036854775807.
Definition TS_MAX : Z := 9223372036854775807.

Definition ts_ok (t : Z) : bool := (TS_MIN <=? t) && (t <=? TS_MAX).

(** [t + pd.Timedelta(f"{hours} hours")]. *)
Definition ts_add_hours (t hours : Z) : result Z :=
  let t' := t + hours * HOUR in
  if ts_ok t' then Ok t' else Raise OutOfBounds.

(** [t.date()] as a day number, and [t.normalize()]. *)
Definition date_of (t : Z) : Z := t / DAY.
Definition normalize (t : Z) : Z := date_of t * DAY.

Definition is_leap (y : Z) : bool :=
  ((y mod 4 =? 0) && negb (y mod 100 =? 0)) || (y mod 400 =? 0).

Definition days_in_month (y m : Z) : Z :=
  if m =? 2 then (if is_leap y then 29 else 28)
  else if (m =? 4) || (m =? 6) || (m =? 9) || (m =? 11) then 30
  else 31.

(** Day number (days since 1970-01-01) of a proleptic Gregorian date. *)
Definition days_from_civil (y m d : Z) : Z :=
  let y' := if m <=? 2 then y - 1 else y in
  let era := y' / 400 in
  let yoe := y' - era * 400 in
  let doy := (153 * (if 2 <? m then m - 3 else m + 9) + 2) / 5 + d - 1 in
  let doe := yoe * 365 + yoe / 4 - yoe / 100 + doy in
  era * 146097 + doe - 719468.

(** The date (year, month, day) of a day number. *)
Definition civil_from_days (z : Z) : Z * Z * Z :=
  let z := z + 719468 in
  let era := z / 146097 in
  let doe := z - era * 146097 in
  let yoe := (doe - doe / 1460 + doe / 36524 - doe / 146096) / 365 in
  let doy := doe - (365 * yoe + yoe / 4 - yoe / 100) in
  let mp := (5 * doy + 2) / 153 in
  let d := doy - (153 * mp + 2) / 5 + 1 in
  let m := if mp <? 10 then mp + 3 else mp - 9 in
  let y := yoe + era * 400 in
  (if m <=? 2 then y + 1 else y, m, d).

(** [pd.Timestamp(year, month, day, hour)]. *)
Definition timestamp (y m d h : Z) : Z := days_from_civil y m d * DAY + h * HOUR.

(** [t.strftime("%Y%m%d")] (the years of a Timestamp have four digits). *)
Definition strftime_Ymd (t : Z) : str :=
  let '(y, m, d) := civil_from_days (date_of t) in
  pad4 y ++ pad2 m ++ pad2 d.

(** *** [pd.to_datetime(s, format="%Y%m%d", exact=False)]

    With [exact=False] the format is compiled to the regular expression
    of [_strptime] and searched for anywhere in the string: four digits,
    then [1[0-2]|0[1-9]|[1-9]], then [3[01]|[12]\d|0[1-9]|[1-9]| [1-9]]. *)

Definition in_range (lo hi c : ascii) : bool :=
  ((N_of_ascii lo <=? N_of_ascii c) && (N_of_ascii c <=? N_of_ascii hi))%N.

(** The ways the month group can match at the head of [s], in the order
    the alternatives are tried, each with the rest of the string. *)
Definition re_month (s : str) : list (Z * str) :=
  (match s with
   | a :: b :: r =>
       (if Ascii.eqb a "1" && in_range "0" "2" b then [(10 + digit_val b, r)] else [])
       ++ (if Ascii.eqb a "0" && in_range "1" "9" b then [(digit_val b, r)] else [])
   | _ => []
   end)
  ++ (match s with
      | a :: r => if in_range "1" "9" a then [(digit_val a, r)] else []
      | [] => []
      end).

(** The day group is the last one of the regular expression: its first
    alternative that matches at the head of [s] is the match. *)
Definition re_day (s : str) : option Z :=
  match s with
  | a :: b :: _ =>
      if Ascii.eqb a "3" && in_range "0" "1" b then Some (30 + digit_val b)
      else if in_range "1" "2" a && is_digit b then Some (10 * digit_val a + digit_val b)
      else if Ascii.eqb a "0" && in_range "1" "9" b then Some (digit_val b)
      else if in_range "1" "9" a then Some (digit_val a)
      else if Ascii.eqb a " " && in_range "1" "9" b then Some (digit_val b)
      else None
  | [a] => if in_range "1" "9" a then Some (digit_val a) else None
  | [] => None
  end.

Fixpoint first_day (alts : list (Z * str)) : option (Z * Z) :=
  match alts with
  | [] => None
  | (m, r) :: alts' =>
      match re_day r with
      | Some d => Some (m, d)
      | None => first_day alts'
      end
  end.

Definition re_Ymd (s : str) : option (Z * Z * Z) :=
  match re_classes [is_digit; is_digit; is_digit; is_digit] s with
  | Some year =>
      match first_day (re_month (skipn 4 s)) with
      | Some (m, d) => Some (int_of_digits year, m, d)
      | None => None
      end
  | None => None
  end.

Definition to_datetime (s : str) : result Z :=
  match search re_Ymd s with
  | None => Raise DateParseError
  | Some (y, m, d) =>
      if (1 <=? y) && (d <=? days_in_month y m) then
        let t := days_from_civil y m d * DAY in
        if ts_ok t then Ok t else Raise OutOfBounds
      else Raise DateParseError
  end.

(* ================================================================== *)
(** ** utils.file2dt *)
(* ================================================================== *)

(** What [file2dt] returns: one Timestamp or a list of them. *)
Inductive decoded : Type :=
| Single (t : Z)
| Multi (ts : list Z).

(** [range(n)]. *)
Definition range (n : nat) : list Z := map Z.of_nat (seq 0 n).

(** [filename.split('/')[-1]]. *)
Definition basename (filename : str) : str := last (split "/" filename) [].

(** [int(regex.findall(filename)[0][2:4])] for the cycle regex. *)
Definition cycle_of (filename : str) : result Z :=
  w <- of_option IndexError (hd_error (findall re_cycle 0 filename)) ;;
  Ok (int_of_digits (slice 2 4 w)).

(** [int(regex.findall(filename)[0][2:-1])] for the lead-time regex. *)
Definition lead_of (filename : str) : result Z :=
  w <- of_option IndexError (hd_error (findall re_lead 0 filename)) ;;
  Ok (int_of_digits (slice 2 (length w - 1) w)).

Definition file2dt (filename : str) : result decoded :=
  let filename := basename filename in
  date <- to_datetime filename ;;
  cycle <- cycle_of filename ;;
  if fnmatch filename $"*.nowcast.*" then
    ts <- mapM (fun dt => ts_add_hours date (cycle - dt)) (rev (range 6)) ;;
    Ok (Multi ts)
  else if fnmatch filename $"*.forecast.*" then
    nfiles <- (if contains $"lsofs" filename || contains $"loofs" filename then Ok 60%nat
               else if contains $"nyofs" filename then Ok 54%nat
               else Raise UnboundLocalError) ;;
    ts <- mapM (fun dt => ts_add_hours date (cycle + 1 + dt)) (range nfiles) ;;
    Ok (Multi ts)
  else if fnmatch filename $"*.n???.*" || fnmatch filename $"*.f???.*" then
    hour <- lead_of filename ;;
    let dt := cycle + hour in
    let dt := if fnmatch filename $"*.n???.*" then dt - 6 else dt in
    t <- ts_add_hours date dt ;;
    Ok (Single t)
  else Ok (Single date).

(* ================================================================== *)
(** ** utils.get_fresh_parameter and utils.is_fresh *)
(* ================================================================== *)

(** A [pathlib.Path] of the cache: its directory and its file name. *)
Record path : Type := Path { parent : str; name : str }.

Definition path_eqb (p q : path) : bool :=
  str_eqb (parent p) (parent q) && str_eqb (name p) (name q).

(** An entry of the dictionary [mc.FRESH]: a Timedelta, or a dictionary
    of Timedeltas by kind of file. *)
Inductive fresh_entry : Type :=
| Mu (mu : Z)
| PerKind (kinds : list (str * Z)).

(** The package configuration of [model_catalogs/__init__.py]: the cache
    directories and the freshness table. *)
Record config : Type := Config {
  CACHE_PATH_AVAILABILITY : str;
  CACHE_PATH_FILE_LOCS : str;
  CACHE_PATH_COMPILED : str;
  FRESH : list (str * fresh_entry)
}.

(** [d[k]] on a dictionary kept as an association list. *)
Fixpoint lookup {V} (k : str) (d : list (str * V)) : result V :=
  match d with
  | [] => Raise KeyError
  | (k', v) :: d' => if str_eqb k' k then Ok v else lookup k d'
  end.

(** [l[1]]. *)
Definition item1 {A} (l : list A) : result A :=
  of_option IndexError (nth_error l 1).

(** [mc.FRESH[timing][kind]]. *)
Definition fresh_kind (mc : config) (timing kind : str) : result Z :=
  e <- lookup timing (FRESH mc) ;;
  match e with
  | PerKind kinds => lookup kind kinds
  | Mu _ => Raise TypeError
  end.

Definition get_fresh_parameter (mc : config) (filename : path) : result Z :=
  if str_eqb (parent filename) (CACHE_PATH_AVAILABILITY mc) then
    timing <- item1 (split "_" (name filename)) ;;
    if contains $"start" (name filename) then fresh_kind mc timing $"start"
    else if contains $"end" (name filename) then fresh_kind mc timing $"end"
    else if contains $"catrefs" (name filename) then fresh_kind mc timing $"catrefs"
    else Raise UnboundLocalError
  else if str_eqb (parent filename) (CACHE_PATH_FILE_LOCS mc) then
    timing <- item1 (split "_" (name filename)) ;;
    fresh_kind mc timing $"file_locs"
  else if str_eqb (parent filename) (CACHE_PATH_COMPILED mc) then
    e <- lookup $"compiled" (FRESH mc) ;;
    match e with
    | Mu mu => Ok mu
    | PerKind _ => Raise TypeError
    end
  else Raise UnboundLocalError.

(** The cache directory seen by [Path.stat]: the modification time
    ([st_mtime_ns]) of each file that exists. *)
Definition files := path -> option Z.

(** Writing a file ([open(p, "w")] and [yaml.dump]) at time [now]. *)
Definition write (fs : files) (p : path) (now : Z) : files :=
  fun q => if path_eqb q p then Some now else fs q.

(** [is_fresh] at clock [now] ([pd.Timestamp.today(tz="UTC")]); a missing
    file makes [stat] raise [FileNotFoundError], which is caught. *)
Definition is_fresh (mc : config) (now : Z) (fs : files) (filename : path)
  : result bool :=
  match fs filename with
  | None => Ok false
  | Some filetime =>
      mu <- get_fresh_parameter mc filename ;;
      Ok (now - filetime <? mu)
  end.

(* ================================================================== *)
(** ** utils.remove_duplicates, find_nowcast_cycles, agg_for_date *)
(* ================================================================== *)

(** [filenames.pop(filenames.index(f))]. *)
Definition pop_value (f : str) (filenames : list str) : result (list str) :=
  match index_of f filenames with
  | Some i => Ok (pop i filenames)
  | None => Raise NotInList
  end.

(** The list comprehension of [remove_duplicates]: the files to remove
    are popped one after the other from the same list. *)
Fixpoint pop_all (files_to_remove : list str) (filenames : list str)
  : result (list str) :=
  match files_to_remove with
  | [] => Ok filenames
  | f :: rest => l <- pop_value f filenames ;; pop_all rest l
  end.

Definition remove_duplicates (filenames : list str) (pattern : str)
  : result (list str) :=
  let files_to_remove := fnmatch_filter filenames pattern in
  if (0 <? length files_to_remove)%nat then pop_all files_to_remove filenames
  else Ok filenames.

(** The sort of [find_nowcast_cycles] compares the keys [parts[-2]]; a
    name with fewer than two fields makes [itemgetter(-2)] raise. *)
Definition find_nowcast_cycles (strings : list str) (pattern : str)
  : result (list str) :=
  let filenames := sorted (fnmatch_filter strings pattern) in
  keyed <- mapM (fun fname =>
                   let parts := split "." fname in
                   k <- second_last parts ;; Ok (k, parts)) filenames ;;
  let ordered := sorted_by fst str_leb keyed in
  Ok (map (fun kp => join $"." (snd kp)) ordered).

(** The timing cycle chosen by the forecast branch: the most frequent
    cycle label of the candidates, the latest one among equals. *)
Definition select_cycle (strings : list str) : result str :=
  let subs := map (slice 2 4) (findall re_cycle 0 (concat strings)) in
  let times := sorted (distinct subs) in
  last_item (sorted_by (fun t => count t subs) Z.leb times).

(** The pattern of the day, for the arguments that [plain_day] (below)
    describes. A custom [pattern] goes through [eval(f"f'{pattern}'")],
    which returns a text without brace, quote, backslash or end of line
    as it is; the default one is [strftime] of a text built from
    [filetype], which leaves a file type without [%] as it is. On other
    arguments the code interpolates or raises, and this definition is
    not what it computes. For the same reason the second [eval], of the
    forecast branch, only puts the cycle in. *)
Definition day_pattern (date : Z) (filetype : str) (pattern : option str) : str :=
  match pattern with
  | None => $"*" ++ filetype ++ $"*.n*." ++ strftime_Ymd date ++ $".t??z.*"
  | Some p => p
  end.

Definition agg_for_date (date : Z) (strings : list str) (filetype : str)
  (is_forecast : bool) (pattern : option str) : result (list str) :=
  let pattern := day_pattern date filetype pattern in
  if is_forecast then
    cycle <- select_cycle strings ;;
    let pattern1 := replace $".t??z." ($".t" ++ cycle ++ $"z.") pattern in
    let fnames := sorted (fnmatch_filter strings pattern1) in
    let pattern2 := replace $".n*." $".f*." pattern1 in
    let fnames_fore := sorted (fnmatch_filter strings pattern2) in
    fnames_fore <- remove_duplicates fnames_fore $"*.f000.*" ;;
    let fnames := fnames ++ fnames_fore in
    fnames_now <- find_nowcast_cycles strings pattern ;;
    match fnames with
    | [] => Raise SelectionError
    | first :: _ =>
        i <- of_option NotInList (index_of first fnames_now) ;;
        let fnames := firstn i fnames_now ++ fnames in
        remove_duplicates fnames $"*.n000.*"
    end
  else
    fnames <- find_nowcast_cycles strings pattern ;;
    remove_duplicates fnames $"*.n000.*".

(* ================================================================== *)
(** ** utils.find_catrefs and utils.find_filelocs *)
(* ================================================================== *)

(** A THREDDS catalog as [siphon.catalog.TDSCatalog] shows it: the
    catalog references by name, in the order of the page (following a
    reference gives the catalog it points to), and the datasets by name,
    each with its dictionary [access_urls] from the name of a service
    ([OPENDAP], [HTTPServer], ...) to a URL. *)
#[warnings="-register-all"]
Inductive catalog : Type :=
| Catalog (catalog_refs : list (str * catalog))
          (datasets : list (str * list (str * str))).

Definition catalog_refs (c : catalog) : list (str * catalog) :=
  match c with Catalog refs _ => refs end.

Definition datasets (c : catalog) : list (str * list (str * str)) :=
  match c with Catalog _ ds => ds end.

(** [list(cat.catalog_refs)]. *)
Definition ref_names (c : catalog) : list str := map fst (catalog_refs c).

(** [cat.catalog_refs[name].follow()]. *)
Definition follow (c : catalog) (name : str) : result catalog :=
  lookup name (catalog_refs c).

(** [s.isnumeric()] on ASCII text. *)
Definition isnumeric (s : str) : bool :=
  match s with
  | [] => false
  | _ => forallb is_digit s
  end.

(** A tuple of 2 or 3 directory labels. *)
Definition catref := list str.

(** [cat.catalog_refs[a].follow().catalog_refs[b].follow().catalog_refs]. *)
Definition refs_below (cat : catalog) (a b : str) : result (list str) :=
  c1 <- follow cat a ;;
  c2 <- follow c1 b ;;
  Ok (ref_names c2).

Definition find_catrefs (cat : catalog) : result (list catref) :=
  let catrefs_to_check := filter isnumeric (ref_names cat) in
  catrefs_to_check1 <-
    mapM (fun catref => c <- follow cat catref ;; Ok (ref_names c))
         catrefs_to_check ;;
  let catrefs :=
    flat_map (fun '(catref0, catrefs1) =>
                map (fun catref1 => (catref0, catref1)) catrefs1)
             (combine catrefs_to_check catrefs_to_check1) in
  first <- of_option IndexError (hd_error catrefs) ;;
  cat_ref_test <- refs_below cat (fst first) (snd first) ;;
  if (1 <? length cat_ref_test)%nat then
    catrefs2 <- mapM (fun catref => refs_below cat (fst catref) (snd catref))
                     catrefs ;;
    Ok (flat_map (fun '(catref, catref2) =>
                    map (fun catref22 => [fst catref; snd catref; catref22])
                        catref2)
                 (combine catrefs catrefs2))
  else Ok (map (fun catref => [fst catref; snd catref]) catrefs).

(** The datasets are visited by name; [access_urls["OPENDAP"]] raises
    [KeyError] for a selected dataset that has no OPENDAP service. *)
Definition find_filelocs (catref : catref) (cat : catalog) (filetype : str)
  : result (list str) :=
  last_cat <-
    match catref with
    | [catref1; catref2] =>
        cat1 <- follow cat catref1 ;;
        follow cat1 catref2
    | [catref1; catref2; catref3] =>
        cat1 <- follow cat catref1 ;;
        cat2 <- follow cat1 catref2 ;;
        follow cat2 catref3
    | _ => Raise UnboundLocalError
    end ;;
  mapM (fun dataset =>
          d <- lookup dataset (datasets last_cat) ;;
          lookup $"OPENDAP" d)
       (filter (fun dataset =>
                  negb (contains $"stations" dataset)
                  && negb (contains $"vibrioprob" dataset)
                  && contains filetype dataset)
               (map fst (datasets last_cat))).

(* ================================================================== *)
(** ** utils.get_dates_from_ofs *)
(* ================================================================== *)

(** [.{norf}[0-9]{3}.] for a letter [norf] ("n" or "f"). *)
Definition re_filetime (norf : ascii) : str -> option str :=
  re_classes [re_dot; Ascii.eqb norf; is_digit; is_digit; is_digit; re_dot].

Section GetDatesFromOfs.
(** [pd.Timestamp(s)] for a string [s]: the date parser of pandas, which
    is not part of these sources. *)
Variable Timestamp : str -> result Z.

(** [norf] is a letter, "n" or "f", which the pattern and the regular
    expression read literally. A [firstorlast] other than "first" and
    "last" leaves [ind] unassigned. The hours of the cycle and of the
    file time are texts of two and three digits, which [pd.Timedelta]
    reads as numbers of hours; the [IndexError] of a name without file
    time is caught and the file time is 0. *)
Definition get_dates_from_ofs (filelocs : list str) (filetype : str)
  (norf : ascii) (firstorlast : str) : result Z :=
  let pattern := $"*" ++ filetype ++ $"*." ++ [norf] ++ $"*.????????.t??z.*" in
  let found := sorted (fnmatch_filter filelocs pattern) in
  fileloc <- (if str_eqb firstorlast $"first"
              then of_option IndexError (hd_error found)
              else if str_eqb firstorlast $"last" then last_item found
              else Raise UnboundLocalError) ;;
  let filename := basename fileloc in
  field <- of_option IndexError (nth_error (split "." filename) 4) ;;
  date <- Timestamp field ;;
  cycle <- cycle_of filename ;;
  let filetime :=
    match hd_error (findall (re_filetime norf) 0 filename) with
    | Some w => int_of_digits (slice 2 5 w)
    | None => 0
    end in
  t <- ts_add_hours date cycle ;;
  ts_add_hours t filetime.
End GetDatesFromOfs.

(* ================================================================== *)
(** ** model_catalogs.find_datetimes: the start of an aggregated source *)
(* ================================================================== *)

(** [pd.Series(index).diff() > pd.Timedelta("1 day")]: [prev] is the
    entry before, absent for the first row, whose difference is NaT and
    compares false. *)
Fixpoint diff_over_day (prev : option Z) (index : list Z) : list bool :=
  match index with
  | [] => []
  | t :: rest =>
      match prev with
      | None => false
      | Some p => DAY <? t - p
      end :: diff_over_day (Some t) rest
  end.

(** [index.where(ddf).dropna()]. *)
Definition where_dropna (index : list Z) (ddf : list bool) : list Z :=
  map fst (filter snd (combine index ddf)).

(** Lines 292-302, on the index of the frame [df]. *)
Definition start_of_index (index : list Z) : result Z :=
  let ddf := diff_over_day None index in
  if existsb (fun b => b) ddf then last_item (where_dropna index ddf)
  else of_option IndexError (hd_error index).

Section FindDatetimes.
(** [mc.filedates2df], which is not part of these sources: the index
    (the decoded times) of the frame it returns for a list of files. *)
Variable filedates2df : list str -> result (list Z).

(** The loop of lines 279-288: the sorted files of the first catalog
    reference that has any; [catrefs[i]] raises past the last one. *)
Fixpoint first_filelocs (cat : catalog) (filetype : str) (catrefs : list catref)
  : result (list str) :=
  match catrefs with
  | [] => Raise IndexError
  | c :: rest =>
      filelocs <- find_filelocs c cat filetype ;;
      match sorted filelocs with
      | [] => first_filelocs cat filetype rest
      | filelocs => Ok filelocs
      end
  end.

(** [find_datetimes] for a source with a [catloc], asked for the start
    only, given the sorted catalog references. *)
Definition find_start_datetime (cat : catalog) (filetype : str)
  (catrefs : list catref) : result Z :=
  filelocs <- first_filelocs cat filetype catrefs ;;
  index <- filedates2df filelocs ;;
  start_of_index index.
End FindDatetimes.

(** Modelled from the spec: [filedates2df], missing from the sources, as
    the specification describes it: every file name is decoded, the times
    are sorted and a time that occurs twice is kept once. *)
Definition decoded_times (d : decoded) : list Z :=
  match d with
  | Single t => [t]
  | Multi ts => ts
  end.

Definition filedates2df (filelocs : list str) : result (list Z) :=
  ds <- mapM file2dt filelocs ;;
  Ok (sorted_by (fun t => t) Z.leb (nodup Z.eq_dec (flat_map decoded_times ds))).

(* ================================================================== *)
(** ** model_catalogs.select_date_range: the window of days *)
(* ================================================================== *)

(** A bound of the final selection: [str(t.date())] or [str(t)]. *)
Inductive bound : Type :=
| DateOnly (day : Z)
| Instant (t : Z).

(** Truth value of [use_forecast_files], which may be [None]. *)
Definition truthy (b : option bool) : bool :=
  match b with
  | Some true => true
  | _ => false
  end.

Record window : Type := Window {
  start_date_sel : option bound;
  end_date_sel : option bound;
  end_date_loop : Z;
  use_forecast_files : option bool
}.

(** Lines 598-626. [start_has_time] and [end_has_time] tell whether the
    caller's input carried a time of day (the test against the default
    time 22:22:22). *)
Definition date_sels (start_date : Z) (end_date : option Z)
  (start_has_time end_has_time : bool) : option bound * option bound :=
  match end_date with
  | Some e =>
      if start_date =? e then (Some (DateOnly (date_of start_date)),
                               Some (DateOnly (date_of e)))
      else
        (Some (if start_has_time then Instant start_date
               else DateOnly (date_of start_date)),
         Some (if end_has_time then Instant e else DateOnly (date_of e)))
  | None =>
      (Some (if start_has_time then Instant start_date
             else DateOnly (date_of start_date)),
       None)
  end.

(** Lines 628-646. *)
Definition set_end_date_loop (today : Z) (end_date : option Z)
  (use_ff : option bool) (end_sel : option bound)
  : Z * option bool * option bound :=
  match end_date with
  | None => (today, Some true, end_sel)
  | Some e =>
      if date_of today <? date_of e then (today, Some true, end_sel)
      else if date_of e <? date_of today then
        if truthy use_ff then (e, use_ff, None)
        else (e + DAY, use_ff, end_sel)
      else (e, Some true, end_sel)
  end.

(** [pd.date_range(start=start, end=end, freq="1D")]. *)
Definition date_range (start end_ : Z) : list Z :=
  if start <=? end_
  then map (fun i => start + i * DAY) (range (Z.to_nat ((end_ - start) / DAY + 1)))
  else [].

(** The days the loop of lines 708-753 visits, each with the
    [is_forecast] flag it passes to [agg_for_date]. *)
Definition loop_days (start_date : Z) (w : window) : list (Z * bool) :=
  map (fun date =>
         (date,
          (date_of date =? date_of (end_date_loop w))
          && truthy (use_forecast_files w)))
      (date_range (normalize start_date) (end_date_loop w)).

(** [select_date_range] up to the loop over the days, for a source that
    needs aggregation. [choose_timing] stands for lines 648-678, which
    pick the timing from the catalog when none is given. *)
Definition select_date_range (choose_timing : option str -> result str)
  (today start_date : Z) (end_date : option Z) (timing : option str)
  (use_ff : option bool) (start_has_time end_has_time : bool)
  : result (str * window * list (Z * bool)) :=
  if match end_date, timing with
     | None, Some t => str_eqb t $"hindcast"
     | _, _ => false
     end
  then Raise KeyError
  else if match end_date with
          | Some e => date_of e <? date_of start_date
          | None => false
          end
  then Raise KeyError
  else
    let '(start_sel, end_sel) :=
      date_sels start_date end_date start_has_time end_has_time in
    let '(loop, use_ff, end_sel) :=
      set_end_date_loop today end_date use_ff end_sel in
    timing <- choose_timing timing ;;
    if truthy use_ff && str_eqb timing $"hindcast" then Raise KeyError
    else
      let w := Window start_sel end_sel loop use_ff in
      Ok (timing, w, loop_days start_date w).

(** *** The intermediate lists of the forecast branch of [agg_for_date],
    named for the statements below. *)

(** [pattern1]: the day pattern restricted to one timing cycle. *)
Definition pattern1_of (pattern cycle : str) : str :=
  replace $".t??z." ($".t" ++ cycle ++ $"z.") pattern.

(** [pattern2]: the forecast files of that cycle. *)
Definition pattern2_of (pattern cycle : str) : str :=
  replace $".n*." $".f*." (pattern1_of pattern cycle).

(** The nowcast files of the selected cycle (line 374). *)
Definition nowcast_of_cycle (strings : list str) (pattern cycle : str) : list str :=
  sorted (fnmatch_filter strings (pattern1_of pattern cycle)).

(** The forecast files of the selected cycle, after the [f000] file is
    dropped (lines 377-380). *)
Definition forecast_of_cycle (strings : list str) (pattern cycle : str)
  : result (list str) :=
  remove_duplicates (sorted (fnmatch_filter strings (pattern2_of pattern cycle)))
                    $"*.f000.*".

(* ================================================================== *)
(** ** Notions of the statements *)
(* ================================================================== *)

(** *** Well-formed names, for the statements about [file2dt] *)

(** Two decimal digits next to each other somewhere in [s]. *)
Fixpoint adjacent_digits (s : str) : bool :=
  match s with
  | a :: (b :: _) as s' =>
      if is_digit a then (if is_digit b then true else adjacent_digits s')
      else adjacent_digits s'
  | _ => false
  end.

(** No [/] in [s]. *)
Definition no_slash (s : str) : bool := forallb (fun c => negb (Ascii.eqb c "/")) s.

(** A path prefix: empty, or ending with [/]. *)
Definition is_dir (s : str) : bool :=
  match rev s with
  | [] => true
  | c :: _ => Ascii.eqb c "/"
  end.

(** The name of a file with one time step: [pre.kLLL.YYYYMMDD.tCCz.post],
    [k] being [n] for a nowcast file and [f] for a forecast file. *)
Definition ofs_name (pre : str) (nowcast : bool) (lead y m d cycle : Z) (post : str)
  : str :=
  pre ++ $"." ++ [if nowcast then "n" else "f"]%char ++ pad3 lead ++ $"."
  ++ pad4 y ++ pad2 m ++ pad2 d ++ $".t" ++ pad2 cycle ++ $"z." ++ post.

(** The tokens of a well-formed name, after its prefix: the lead-time
    token, the date, the cycle token and the rest. *)
Definition tokens (k l1 l2 l3 y1 y2 y3 y4 m1 m2 d1 d2 c1 c2 : ascii) (post : str)
  : str :=
  ["."; k; l1; l2; l3; "."; y1; y2; y3; y4; m1; m2; d1; d2; "."; "t"; c1; c2;
   "z"; "."]%char ++ post.

(** A name of the family with one time step: it matches neither
    [*.nowcast.*] nor [*.forecast.*], which [file2dt] tries first. *)
Definition single_step (name : str) : bool :=
  negb (fnmatch name $"*.nowcast.*") && negb (fnmatch name $"*.forecast.*").

(** *** The kinds of cache files *)




(** *** Plain patterns *)

(** No opening bracket in a pattern: on such a pattern [fnmatch_pat] is
    Python's [fnmatch]. *)
Definition bracket_free (pat : str) : bool :=
  forallb (fun c => negb (Ascii.eqb c "[")) pat.

(** A character that [fnmatch], or the f-string that [agg_for_date]
    gives to [eval], reads in a special way: the opening bracket, a
    brace, the quote that ends the f-string, a backslash, an end of line
    (line feed or carriage return) and the null character. *)
Definition special_char (c : ascii) : bool :=
  existsb (Ascii.eqb c) ["["; "{"; "}"; "'"; "\"; "010"; "013"; "000"]%char.

(** A text that [eval(f"f'{text}'")] returns as it is and that holds no
    bracket expression. *)
Definition literal_text (s : str) : bool :=
  forallb (fun c => negb (special_char c)) s.

(** The arguments on which [day_pattern] and the patterns of the
    forecast branch are the ones the code computes: a custom pattern
    that [eval] leaves as it is (line 352), or, for the default
    pattern, a file type that [strftime] does not expand (no [%]) and
    that the [eval] of line 372 leaves as it is. *)
Definition plain_day (filetype : str) (pattern : option str) : bool :=
  match pattern with
  | Some p => literal_text p
  | None =>
      literal_text filetype
      && forallb (fun c => negb (Ascii.eqb c "%")) filetype
  end.

(** *** The cycle field of a name, and the labels of the candidates *)

(** The field before the last one of a dotted name, the key of the sort
    of [find_nowcast_cycles] (empty when the name has a single field). *)
Definition cycle_field (fname : str) : str :=
  match second_last (split "." fname) with
  | Ok k => k
  | Raise _ => []
  end.

(** The cycle labels [subs] that the forecast branch of [agg_for_date]
    reads off the candidates. *)
Definition cycle_labels (strings : list str) : list str :=
  map (slice 2 4) (findall re_cycle 0 (concat strings)).

(** *** The catalog at the end of a tuple of labels *)

(** The catalog [last_cat] that [find_filelocs] reaches by following the
    labels of [catref]. *)
Definition last_catalog (catref : catref) (cat : catalog) : result catalog :=
  match catref with
  | [catref1; catref2] =>
      cat1 <- follow cat catref1 ;;
      follow cat1 catref2
  | [catref1; catref2; catref3] =>
      cat1 <- follow cat catref1 ;;
      cat2 <- follow cat1 catref2 ;;
      follow cat2 catref3
  | _ => Raise UnboundLocalError
  end.

(** *** Gaps between decoded times, and ranges of days *)

(** The times that follow a gap of more than a day. *)
Definition gap_starts (prev : option Z) (index : list Z) : list Z :=
  where_dropna index (diff_over_day prev index).

(** No two consecutive times of [prev :: index] are more than one day
    apart. *)
Fixpoint contiguous_from (prev : Z) (index : list Z) : Prop :=
  match index with
  | [] => True
  | t :: rest => t - prev <= DAY /\ contiguous_from t rest
  end.

(** The day numbers from [a] to [b], both included. *)
Definition days_between (a b : Z) : list Z :=
  map (fun i => a + i) (range (Z.to_nat (b - a + 1))).

(* ================================================================== *)
(** ** Data of the examples *)
(* ================================================================== *)

(** The candidates of the examples: files of CBOFS for 2022-07-01. *)
Definition cbofs (lead cycle : string) : str :=
  $"https://opendap.co-ops.nos.noaa.gov/thredds/dodsC/NOAA/CBOFS/MODELS/2022/07/01/nos.cbofs.fields."
  ++ list_ascii_of_string lead ++ $".20220701.t"
  ++ list_ascii_of_string cycle ++ $"z.nc".

(** A cache configuration and a key of it. *)
Definition mc_example : config :=
  Config $"/cache/availability" $"/cache/file_locs" $"/cache/compiled"
    [($"forecast", PerKind [($"start", 24 * HOUR); ($"end", 4 * HOUR);
                            ($"catrefs", 6 * HOUR); ($"file_locs", 4 * HOUR)]);
     ($"nowcast", PerKind [($"start", 24 * HOUR); ($"end", 4 * HOUR);
                           ($"catrefs", 6 * HOUR); ($"file_locs", 4 * HOUR)]);
     ($"compiled", Mu (180 * DAY))].




(** A catalog with one year, one month and, below it, one day that holds
    a file; [images] is a directory that is not numeric. *)
Definition day_catalog : catalog :=
  Catalog [] [($"nos.cbofs.fields.n001.20220701.t00z.nc",
               [($"OPENDAP", cbofs "n001" "00")])].

Definition one_day_tree : catalog :=
  Catalog [($"images", Catalog [] []);
           ($"2022", Catalog [($"07", Catalog [($"01", day_catalog)] [])] [])]
          [].

(** The same with two days in the month. *)
Definition two_day_tree : catalog :=
  Catalog [($"2022", Catalog [($"07", Catalog [($"01", day_catalog);
                                                ($"02", day_catalog)] [])] [])]
          [].

(** A catalog of two months: June 2022 holds a file of the 27th and,
    three days later, two files of the 30th; July holds one file. *)
Definition cbofs_name (lead date cycle : string) : str :=
  $"nos.cbofs.fields." ++ list_ascii_of_string lead ++ $"."
  ++ list_ascii_of_string date ++ $".t" ++ list_ascii_of_string cycle ++ $"z.nc".

Definition cbofs_url (lead date cycle : string) : str :=
  $"https://www.ncei.noaa.gov/thredds/dodsC/model-cbofs-files/"
  ++ cbofs_name lead date cycle.

Definition cbofs_file (lead date cycle : string) : str * list (str * str) :=
  (cbofs_name lead date cycle,
   [($"HTTPServer",
     $"https://www.ncei.noaa.gov/thredds/fileServer/model-cbofs-files/"
     ++ cbofs_name lead date cycle);
    ($"OPENDAP", cbofs_url lead date cycle)]).

Definition two_month_tree : catalog :=
  Catalog
    [($"2022",
      Catalog [($"06", Catalog [] [cbofs_file "n006" "20220630" "12";
                                   cbofs_file "n006" "20220627" "00";
                                   cbofs_file "n006" "20220630" "00"]);
               ($"07", Catalog [] [cbofs_file "n006" "20220701" "00"])]
              [])]
    [].

(** A caller who always names the timing. *)
Definition named_timing (timing : option str) : result str :=
  of_option KeyError timing.

(** A date parser for the examples: [pd.Timestamp] on the texts
    [YYYYMMDD], which it reads as [pd.to_datetime] does with the format
    [%Y%m%d]; any other text is refused. *)
Definition Timestamp_Ymd (s : str) : result Z :=
  if (length s =? 8)%nat then to_datetime s else Raise DateParseError.

(* ================================================================== *)
(** * Properties *)
(* ================================================================== *)

(** ** Exceptions *)

Lemma bind_Ok {A B} (r : result A) (k : A -> result B) (b : B) :
  bind r k = Ok b -> exists a, r = Ok a /\ k a = Ok b.
Proof.
  destruct r as [a|e]; simpl; intros H; [eauto | discriminate].
Qed.

Lemma bind_Raise {A B} (r : result A) (k : A -> result B) (e : exn) :
  bind r k = Raise e -> r = Raise e \/ exists a, r = Ok a /\ k a = Raise e.
Proof.
  destruct r as [a|e']; simpl; intros H; [right; eauto | left; congruence].
Qed.

(** ** Strings *)

Lemma str_eqb_refl (s : str) : str_eqb s s = true.
Proof.
  unfold str_eqb. destruct (list_eq_dec ascii_dec s s); congruence.
Qed.

Lemma str_eqb_eq (a b : str) : str_eqb a b = true <-> a = b.
Proof.
  unfold str_eqb. destruct (list_eq_dec ascii_dec a b); split; congruence.
Qed.

Lemma str_eqb_neq (a b : str) : str_eqb a b = false <-> a <> b.
Proof.
  unfold str_eqb. destruct (list_eq_dec ascii_dec a b); split; congruence.
Qed.

(** ** Splitting and joining, the base name *)

Lemma split_aux_not_nil (sep : ascii) (s : str) : forall cur,
  split_aux sep cur s <> [].
Proof.
  induction s as [|c s IH]; intros cur; simpl.
  - discriminate.
  - destruct (Ascii.eqb c sep); [discriminate | apply IH].
Qed.

Lemma split_aux_no_sep (sep : ascii) (s : str) : forall cur,
  forallb (fun c => negb (Ascii.eqb c sep)) s = true ->
  split_aux sep cur s = [rev cur ++ s].
Proof.
  induction s as [|c s IH]; intros cur H; simpl in *.
  - now rewrite app_nil_r.
  - apply andb_true_iff in H. destruct H as [Hc Hs].
    apply negb_true_iff in Hc. rewrite Hc, (IH _ Hs). simpl.
    now rewrite <- app_assoc.
Qed.

Lemma last_cons_not_nil {A} (x : A) (l : list A) (d : A) :
  l <> [] -> last (x :: l) d = last l d.
Proof.
  destruct l; [congruence | reflexivity].
Qed.

Lemma last_split_aux_app (sep : ascii) (base : str) (p : str) : forall cur,
  last (split_aux sep cur (p ++ sep :: base)) [] = last (split_aux sep [] base) [].
Proof.
  induction p as [|c p IH]; intros cur; simpl.
  - rewrite Ascii.eqb_refl. apply last_cons_not_nil, split_aux_not_nil.
  - destruct (Ascii.eqb c sep).
    + rewrite last_cons_not_nil by apply split_aux_not_nil. apply IH.
    + apply IH.
Qed.

Lemma basename_dir (dir base : str) :
  is_dir dir = true -> no_slash base = true -> basename (dir ++ base) = base.
Proof.
  unfold is_dir, no_slash, basename, split. intros Hdir Hbase.
  assert (last (split_aux "/" [] base) [] = base) as Hlast
      by (now rewrite split_aux_no_sep).
  destruct (rev dir) as [|c r] eqn:Hrev.
  - apply (f_equal (@rev ascii)) in Hrev. rewrite rev_involutive in Hrev.
    subst dir. exact Hlast.
  - apply (f_equal (@rev ascii)) in Hrev. rewrite rev_involutive in Hrev.
    apply Ascii.eqb_eq in Hdir. subst. simpl rev.
    rewrite <- app_assoc. simpl app. now rewrite last_split_aux_app.
Qed.

Lemma join_split_aux (c : ascii) (s : str) : forall cur,
  join [c] (split_aux c cur s) = rev cur ++ s.
Proof.
  induction s as [|x s IH]; intros cur; simpl split_aux.
  - simpl. now rewrite app_nil_r.
  - destruct (Ascii.eqb x c) eqn:E.
    + apply Ascii.eqb_eq in E. subst x.
      pose proof (split_aux_not_nil c s []) as Hne.
      specialize (IH []). simpl in IH.
      destruct (split_aux c [] s) as [|p ps]; [congruence|].
      simpl join in *. now rewrite IH.
    + rewrite IH. simpl. now rewrite <- app_assoc.
Qed.

Lemma join_split (c : ascii) (s : str) : join [c] (split c s) = s.
Proof. apply join_split_aux. Qed.

(** ** Lists *)

Lemma In_insert_by {A K} (key : A -> K) (leb : K -> K -> bool) (x y : A)
  (l : list A) : In y (insert_by key leb x l) <-> y = x \/ In y l.
Proof.
  induction l as [|z l IH]; simpl.
  - intuition.
  - destruct (leb (key x) (key z)); simpl; rewrite ?IH; intuition.
Qed.

Lemma In_sorted_by {A K} (key : A -> K) (leb : K -> K -> bool) (y : A)
  (l : list A) : In y (sorted_by key leb l) <-> In y l.
Proof.
  induction l as [|x l IH]; simpl.
  - reflexivity.
  - rewrite In_insert_by, IH. intuition.
Qed.

Lemma mapM_Ok_In {A B} (k : A -> result B) (l : list A) (l' : list B) :
  mapM k l = Ok l' -> forall b, In b l' -> exists a, In a l /\ k a = Ok b.
Proof.
  revert l'. induction l as [|x l IH]; simpl; intros l' H b Hb.
  - injection H as <-. destruct Hb.
  - apply bind_Ok in H. destruct H as (y & Hy & H).
    apply bind_Ok in H. destruct H as (ys & Hys & H). injection H as <-.
    destruct Hb as [<- | Hb].
    + exists x. auto.
    + destruct (IH ys Hys b Hb) as (a & Ha & Hk). exists a. auto.
Qed.

(** ** fnmatch with a leading star *)

Lemma fnmatch_star_nil (s : str) : fnmatch_pat ["*"]%char s = true.
Proof.
  induction s as [|c s IH]; [reflexivity | exact IH].
Qed.

Lemma fnmatch_star_app (pat pre s : str) :
  fnmatch_pat pat s = true -> fnmatch_pat ("*"%char :: pat) (pre ++ s) = true.
Proof.
  intros H. induction pre as [|a pre IH].
  - destruct s; simpl in *; now rewrite H.
  - change (fnmatch_pat ("*"%char :: pat) ((a :: pre) ++ s))
      with (if fnmatch_pat pat (a :: pre ++ s) then true
            else fnmatch_pat ("*"%char :: pat) (pre ++ s)).
    rewrite IH. now destruct (fnmatch_pat pat (a :: pre ++ s)).
Qed.

Lemma fnmatch_lead_token (k a b c : ascii) (pre rest : str) :
  k = "n"%char \/ k = "f"%char ->
  fnmatch (pre ++ "."%char :: k :: a :: b :: c :: "."%char :: rest)
          ("*"%char :: "."%char :: k :: $"???.*") = true.
Proof.
  intros Hk. unfold fnmatch. apply fnmatch_star_app.
  destruct Hk as [-> | ->]; exact (fnmatch_star_nil rest).
Qed.

(** ** Searching a well-formed name *)

Lemma search_here {A} (m : str -> option A) (s : str) (a : A) :
  m s = Some a -> search m s = Some a.
Proof.
  intros H. destruct s; simpl; now rewrite H.
Qed.

Lemma search_next {A} (m : str -> option A) (c : ascii) (s : str) :
  m (c :: s) = None -> search m (c :: s) = search m s.
Proof.
  intros H. simpl. now rewrite H.
Qed.

Lemma search_skip_prefix {A} (m : str -> option A) (rest : str) (pre : str) :
  (forall p1 p2, pre = p1 ++ p2 -> p2 <> [] -> m (p2 ++ rest) = None) ->
  search m (pre ++ rest) = search m rest.
Proof.
  induction pre as [|a pre IH]; intros H.
  - reflexivity.
  - change ((a :: pre) ++ rest) with (a :: pre ++ rest).
    rewrite search_next.
    + apply IH. intros p1 p2 -> Hne. apply (H (a :: p1) p2); [reflexivity | assumption].
    + apply (H [] (a :: pre)); [reflexivity | discriminate].
Qed.

Lemma hd_findall (m : str -> option str) (s : str) :
  m [] = None -> hd_error (findall m 0 s) = search m s.
Proof.
  intros Hnil. induction s as [|c s IH].
  - simpl. now rewrite Hnil.
  - simpl. destruct (m (c :: s)); [reflexivity | exact IH].
Qed.

Lemma adjacent_digits_tail (a : ascii) (s : str) :
  adjacent_digits (a :: s) = false -> adjacent_digits s = false.
Proof.
  simpl. destruct s as [|b s]; [reflexivity|].
  destruct (is_digit a), (is_digit b); congruence.
Qed.

Lemma adjacent_digits_suffix (p1 p2 : str) :
  adjacent_digits (p1 ++ p2) = false -> adjacent_digits p2 = false.
Proof.
  induction p1 as [|a p1 IH]; simpl app; intros H.
  - exact H.
  - apply IH. eapply adjacent_digits_tail. exact H.
Qed.

Lemma adjacent_digits_head (a b : ascii) (s : str) :
  adjacent_digits (a :: b :: s) = false -> is_digit a = false \/ is_digit b = false.
Proof.
  simpl. destruct (is_digit a), (is_digit b); auto.
Qed.

(** Closes a goal [m s = None] where some class of the regular
    expression rejects its character. *)
Ltac no_match :=
  cbn [re_classes option_map app];
  repeat match goal with
         | H : ?b = _ |- context [if ?b then _ else _] => rewrite H
         | |- context [if ?b then _ else _] =>
             let E := fresh in
             destruct b eqn:E; try (vm_compute in E; discriminate E)
         end;
  reflexivity.

(** None of the three regular expressions matches at a position of a
    prefix without adjacent digits that is followed by a dot. *)
Lemma re_cycle_not_in_prefix (p2 rest : str) :
  p2 <> [] -> adjacent_digits p2 = false ->
  re_cycle (p2 ++ "."%char :: rest) = None.
Proof.
  intros Hne Hadj. unfold re_cycle.
  destruct p2 as [|a [|b [|c [|d p2]]]]; [congruence | no_match ..|].
  apply adjacent_digits_tail, adjacent_digits_tail, adjacent_digits_head in Hadj.
  destruct Hadj; no_match.
Qed.

Lemma re_lead_not_in_prefix (p2 rest : str) :
  p2 <> [] -> adjacent_digits p2 = false ->
  re_lead (p2 ++ "."%char :: rest) = None.
Proof.
  intros Hne Hadj. unfold re_lead.
  destruct p2 as [|a [|b [|c [|d p2]]]]; [congruence | no_match ..|].
  apply adjacent_digits_tail, adjacent_digits_tail, adjacent_digits_head in Hadj.
  destruct Hadj; no_match.
Qed.

Lemma re_Ymd_not_in_prefix (p2 rest : str) :
  p2 <> [] -> adjacent_digits p2 = false ->
  re_Ymd (p2 ++ "."%char :: rest) = None.
Proof.
  intros Hne Hadj. unfold re_Ymd.
  destruct p2 as [|a [|b p2]]; [congruence | |].
  - assert (re_classes [is_digit; is_digit; is_digit; is_digit]
              ([a] ++ "."%char :: rest) = None) as -> by no_match.
    reflexivity.
  - apply adjacent_digits_head in Hadj.
    assert (re_classes [is_digit; is_digit; is_digit; is_digit]
              ((a :: b :: p2) ++ "."%char :: rest) = None) as ->
        by (destruct Hadj; no_match).
    reflexivity.
Qed.

(** Facts about digits. *)
Lemma is_digit_not (c d : ascii) :
  is_digit d = true -> is_digit c = false -> Ascii.eqb c d = false.
Proof.
  intros Hd Hc. apply Ascii.eqb_neq. intros ->. congruence.
Qed.

Lemma digit_re_dot (d : ascii) : is_digit d = true -> re_dot d = true.
Proof.
  intros Hd. unfold re_dot. rewrite Ascii.eqb_sym, (is_digit_not "010" d Hd); reflexivity.
Qed.

Lemma digit_char_spec (x : Z) :
  0 <= x <= 9 -> is_digit (digit_char x) = true /\ digit_val (digit_char x) = x.
Proof.
  intros H.
  assert (x = 0 \/ x = 1 \/ x = 2 \/ x = 3 \/ x = 4 \/ x = 5 \/ x = 6 \/ x = 7
          \/ x = 8 \/ x = 9) as Hx by lia.
  repeat (destruct Hx as [-> | Hx]; [split; reflexivity|]). subst. split; reflexivity.
Qed.

Lemma is_digit_char_mod (n : Z) : is_digit (digit_char (n mod 10)) = true.
Proof.
  apply digit_char_spec. pose proof (Z.mod_pos_bound n 10). lia.
Qed.

Lemma digit_val_char_mod (n : Z) : digit_val (digit_char (n mod 10)) = n mod 10.
Proof.
  apply digit_char_spec. pose proof (Z.mod_pos_bound n 10). lia.
Qed.

Lemma int_of_pad2 (n : Z) : 0 <= n <= 99 -> int_of_digits (pad2 n) = n.
Proof.
  intros H. unfold int_of_digits, pad2. cbn [fold_left].
  rewrite !digit_val_char_mod.
  Z.to_euclidean_division_equations. lia.
Qed.

Lemma int_of_pad3 (n : Z) : 0 <= n <= 999 -> int_of_digits (pad3 n) = n.
Proof.
  intros H. unfold int_of_digits, pad3, pad2. cbn [fold_left].
  rewrite !digit_val_char_mod.
  Z.to_euclidean_division_equations. lia.
Qed.

Lemma int_of_pad4 (n : Z) : 0 <= n <= 9999 -> int_of_digits (pad4 n) = n.
Proof.
  intros H. unfold int_of_digits, pad4, pad3, pad2. cbn [fold_left].
  rewrite !digit_val_char_mod.
  Z.to_euclidean_division_equations. lia.
Qed.

(** The month and day groups read a two-digit month and a two-digit day
    back. *)
Lemma first_day_pad2 (m d : Z) (rest : str) :
  1 <= m <= 12 -> 1 <= d <= 31 ->
  first_day (re_month (pad2 m ++ pad2 d ++ rest)) = Some (m, d).
Proof.
  intros Hm Hd.
  assert (m = 1 \/ m = 2 \/ m = 3 \/ m = 4 \/ m = 5 \/ m = 6 \/ m = 7 \/ m = 8
          \/ m = 9 \/ m = 10 \/ m = 11 \/ m = 12) as Hm' by lia.
  assert (d = 1 \/ d = 2 \/ d = 3 \/ d = 4 \/ d = 5 \/ d = 6 \/ d = 7 \/ d = 8
          \/ d = 9 \/ d = 10 \/ d = 11 \/ d = 12 \/ d = 13 \/ d = 14 \/ d = 15
          \/ d = 16 \/ d = 17 \/ d = 18 \/ d = 19 \/ d = 20 \/ d = 21 \/ d = 22
          \/ d = 23 \/ d = 24 \/ d = 25 \/ d = 26 \/ d = 27 \/ d = 28 \/ d = 29
          \/ d = 30 \/ d = 31) as Hd' by lia.
  clear Hm Hd.
  repeat (destruct Hm' as [-> | Hm']);
    repeat (destruct Hd' as [-> | Hd']); subst; reflexivity.
Qed.

Section Tokens.
Variables (k l1 l2 l3 y1 y2 y3 y4 m1 m2 d1 d2 c1 c2 : ascii) (pre post : str).
Hypothesis pre_ok : adjacent_digits pre = false.
Hypothesis k_ok : k = "n"%char \/ k = "f"%char.
Hypothesis l1_ok : is_digit l1 = true.
Hypothesis l2_ok : is_digit l2 = true.
Hypothesis l3_ok : is_digit l3 = true.
Hypothesis y1_ok : is_digit y1 = true.
Hypothesis y2_ok : is_digit y2 = true.
Hypothesis y3_ok : is_digit y3 = true.
Hypothesis y4_ok : is_digit y4 = true.
Hypothesis m1_ok : is_digit m1 = true.
Hypothesis m2_ok : is_digit m2 = true.
Hypothesis d1_ok : is_digit d1 = true.
Hypothesis d2_ok : is_digit d2 = true.
Hypothesis c1_ok : is_digit c1 = true.
Hypothesis c2_ok : is_digit c2 = true.

Let name : str :=
  pre ++ tokens k l1 l2 l3 y1 y2 y3 y4 m1 m2 d1 d2 c1 c2 post.

Lemma search_lead_tokens :
  search re_lead name = Some ["."; k; l1; l2; l3; "."]%char.
Proof.
  unfold name, tokens. cbn [app].
  rewrite search_skip_prefix.
  - apply search_here. unfold re_lead.
    destruct k_ok as [-> | ->]; cbn [re_classes option_map];
      rewrite l1_ok, l2_ok, l3_ok; reflexivity.
  - intros p1 p2 -> Hne. apply re_lead_not_in_prefix; [assumption|].
    now apply adjacent_digits_suffix in pre_ok.
Qed.

Lemma search_cycle_tokens :
  search re_cycle name = Some ["."; "t"; c1; c2; "z"; "."]%char.
Proof.
  pose proof (is_digit_not "t" l1 l1_ok eq_refl).
  pose proof (is_digit_not "t" l2 l2_ok eq_refl).
  pose proof (is_digit_not "t" l3 l3_ok eq_refl).
  pose proof (is_digit_not "t" y1 y1_ok eq_refl).
  pose proof (is_digit_not "t" y2 y2_ok eq_refl).
  pose proof (is_digit_not "t" y3 y3_ok eq_refl).
  pose proof (is_digit_not "t" y4 y4_ok eq_refl).
  pose proof (is_digit_not "t" m1 m1_ok eq_refl).
  pose proof (is_digit_not "t" m2 m2_ok eq_refl).
  pose proof (is_digit_not "t" d1 d1_ok eq_refl).
  pose proof (is_digit_not "t" d2 d2_ok eq_refl).
  unfold name, tokens. cbn [app].
  rewrite search_skip_prefix.
  - unfold re_cycle.
    destruct k_ok as [-> | ->];
      do 14 (rewrite search_next by no_match);
      apply search_here; cbn [re_classes option_map];
      rewrite c1_ok, c2_ok; reflexivity.
  - intros p1 p2 -> Hne. apply re_cycle_not_in_prefix; [assumption|].
    now apply adjacent_digits_suffix in pre_ok.
Qed.

Lemma search_Ymd_tokens (m d : Z) :
  first_day (re_month (m1 :: m2 :: d1 :: d2
                       :: ["."; "t"; c1; c2; "z"; "."]%char ++ post)) = Some (m, d) ->
  search re_Ymd name = Some (int_of_digits [y1; y2; y3; y4], m, d).
Proof.
  intros Hmd. unfold name, tokens. cbn [app] in *.
  rewrite search_skip_prefix.
  - assert (forall s, re_classes [is_digit; is_digit; is_digit; is_digit] s = None ->
                      re_Ymd s = None) as Hno
        by (intros s Hs; unfold re_Ymd; now rewrite Hs).
    destruct k_ok as [-> | ->];
      do 6 (rewrite search_next by (apply Hno; no_match));
      apply search_here; unfold re_Ymd; cbn [re_classes];
      rewrite y1_ok, y2_ok, y3_ok, y4_ok; cbn [option_map skipn];
      rewrite Hmd; reflexivity.
  - intros p1 p2 -> Hne. apply re_Ymd_not_in_prefix; [assumption|].
    now apply adjacent_digits_suffix in pre_ok.
Qed.

End Tokens.

(** ** The Timestamps of the years 1678 to 2261 *)

Lemma days_from_civil_bounds (y m d : Z) :
  1678 <= y <= 2261 -> 1 <= m <= 12 -> 1 <= d <= 31 ->
  -106700 <= days_from_civil y m d <= 106700.
Proof.
  intros Hy Hm Hd. unfold days_from_civil.
  destruct (m <=? 2) eqn:E1; destruct (2 <? m) eqn:E2;
    try (apply Z.leb_le in E1); try (apply Z.leb_gt in E1);
    try (apply Z.ltb_lt in E2); try (apply Z.ltb_ge in E2);
    Z.to_euclidean_division_equations; lia.
Qed.

Lemma ts_ok_near_date (y m d hours : Z) :
  1678 <= y <= 2261 -> 1 <= m <= 12 -> 1 <= d <= 31 ->
  -6 <= hours <= 1098 ->
  ts_ok (days_from_civil y m d * DAY + hours * HOUR) = true.
Proof.
  intros Hy Hm Hd Hh.
  pose proof (days_from_civil_bounds y m d Hy Hm Hd) as Hb.
  unfold ts_ok, TS_MIN, TS_MAX, DAY, HOUR.
  apply andb_true_iff. rewrite !Z.leb_le. lia.
Qed.

Lemma days_in_month_le_31 (y m : Z) : days_in_month y m <= 31.
Proof.
  unfold days_in_month.
  destruct (m =? 2); [destruct (is_leap y); lia|].
  destruct ((m =? 4) || (m =? 6) || (m =? 9) || (m =? 11)); lia.
Qed.

(** ** file2dt on the names with one time step *)

(** The rule of the third branch of [file2dt], on what the parsers
    return. *)
Lemma file2dt_single_step (filename : str) (date cycle lead : Z) :
  to_datetime (basename filename) = Ok date ->
  cycle_of (basename filename) = Ok cycle ->
  lead_of (basename filename) = Ok lead ->
  fnmatch (basename filename) $"*.nowcast.*" = false ->
  fnmatch (basename filename) $"*.forecast.*" = false ->
  fnmatch (basename filename) $"*.n???.*"
  || fnmatch (basename filename) $"*.f???.*" = true ->
  ts_ok (date + (cycle + lead
                 - (if fnmatch (basename filename) $"*.n???.*" then 6 else 0))
                * HOUR) = true ->
  file2dt filename
  = Ok (Single (date + (cycle + lead
                        - (if fnmatch (basename filename) $"*.n???.*" then 6 else 0))
                       * HOUR)).
Proof.
  intros Hd Hc Hl Hnow Hfore Hfam Hok. unfold file2dt. cbv zeta.
  rewrite Hd, Hc. cbn [bind]. rewrite Hnow, Hfore, Hfam, Hl. cbn [bind].
  unfold ts_add_hours.
  destruct (fnmatch (basename filename) $"*.n???.*");
    rewrite ?Z.sub_0_r in Hok; rewrite Hok; cbn [bind];
    rewrite ?Z.sub_0_r; reflexivity.
Qed.

Lemma digit_char_not_slash (n : Z) :
  negb (Ascii.eqb (digit_char (n mod 10)) "/") = true.
Proof.
  rewrite Ascii.eqb_sym, (is_digit_not "/" _ (is_digit_char_mod n)); reflexivity.
Qed.

Lemma no_slash_ofs_name (pre post : str) (nowcast : bool) (lead y m d cycle : Z) :
  no_slash pre = true -> no_slash post = true ->
  no_slash (ofs_name pre nowcast lead y m d cycle post) = true.
Proof.
  intros Hpre Hpost. unfold ofs_name, no_slash, pad4, pad3, pad2 in *.
  rewrite forallb_app, Hpre. cbn [app list_ascii_of_string forallb andb].
  rewrite !digit_char_not_slash, Hpost. now destruct nowcast.
Qed.

(** A well-formed name parses to its tokens. *)
Lemma ofs_name_parsed (pre post : str) (nowcast : bool) (lead y m d cycle : Z) :
  adjacent_digits pre = false ->
  1678 <= y <= 2261 -> 1 <= m <= 12 -> 1 <= d <= days_in_month y m ->
  0 <= cycle <= 99 -> 0 <= lead <= 999 ->
  to_datetime (ofs_name pre nowcast lead y m d cycle post) = Ok (timestamp y m d 0)
  /\ cycle_of (ofs_name pre nowcast lead y m d cycle post) = Ok cycle
  /\ lead_of (ofs_name pre nowcast lead y m d cycle post) = Ok lead
  /\ fnmatch (ofs_name pre nowcast lead y m d cycle post)
             (if nowcast then $"*.n???.*" else $"*.f???.*") = true.
Proof.
  intros Hpre Hy Hm Hd Hc Hl.
  pose proof (days_in_month_le_31 y m) as H31.
  set (k := if nowcast then "n"%char else "f"%char).
  assert (k = "n"%char \/ k = "f"%char) as Hk by (destruct nowcast; auto).
  assert (ofs_name pre nowcast lead y m d cycle post
          = pre ++ tokens k
                     (digit_char (lead / 100 mod 10)) (digit_char (lead / 10 mod 10))
                     (digit_char (lead mod 10))
                     (digit_char (y / 1000 mod 10)) (digit_char (y / 100 mod 10))
                     (digit_char (y / 10 mod 10)) (digit_char (y mod 10))
                     (digit_char (m / 10 mod 10)) (digit_char (m mod 10))
                     (digit_char (d / 10 mod 10)) (digit_char (d mod 10))
                     (digit_char (cycle / 10 mod 10)) (digit_char (cycle mod 10))
                     post) as -> by reflexivity.
  repeat split.
  - unfold to_datetime.
    rewrite (search_Ymd_tokens _ _ _ _ _ _ _ _ _ _ _ _ _ _ _ _ Hpre Hk) with (m := m) (d := d);
      try apply is_digit_char_mod.
    + change [digit_char (y / 1000 mod 10); digit_char (y / 100 mod 10);
              digit_char (y / 10 mod 10); digit_char (y mod 10)] with (pad4 y).
      rewrite int_of_pad4 by lia.
      assert ((1 <=? y) && (d <=? days_in_month y m) = true) as ->
          by (apply andb_true_iff; rewrite !Z.leb_le; lia).
      pose proof (ts_ok_near_date y m d 0 Hy Hm ltac:(lia) ltac:(lia)) as Hok.
      unfold timestamp. rewrite Z.mul_0_l, Z.add_0_r in *. now rewrite Hok.
    + apply (first_day_pad2 m d); lia.
  - unfold cycle_of. rewrite hd_findall by reflexivity.
    rewrite (search_cycle_tokens _ _ _ _ _ _ _ _ _ _ _ _ _ _ _ _ Hpre Hk);
      try apply is_digit_char_mod.
    cbn [of_option bind slice skipn firstn Nat.sub].
    apply f_equal. exact (int_of_pad2 cycle Hc).
  - unfold lead_of. rewrite hd_findall by reflexivity.
    rewrite (search_lead_tokens _ _ _ _ _ _ _ _ _ _ _ _ _ _ _ _ Hpre Hk);
      try apply is_digit_char_mod.
    cbn [of_option bind slice skipn firstn Nat.sub length].
    apply f_equal. exact (int_of_pad3 lead Hl).
  - unfold tokens. cbn [app].
    subst k. destruct nowcast.
    + exact (fnmatch_lead_token "n" _ _ _ pre _ (or_introl eq_refl)).
    + exact (fnmatch_lead_token "f" _ _ _ pre _ (or_intror eq_refl)).
Qed.

(** The [*.nowcast.*] branch is tried first: a name that matches it is
    decoded to six times even when it holds a lead-time token. *)
Lemma file2dt_nowcast_branch_first :
  file2dt $"glofs.lsofs.fields.nowcast.n003.20220701.t00z.nc"
  = Ok (Multi [timestamp 2022 6 30 19; timestamp 2022 6 30 20;
               timestamp 2022 6 30 21; timestamp 2022 6 30 22;
               timestamp 2022 6 30 23; timestamp 2022 7 1 0]).
Proof.
  vm_compute. reflexivity.
Qed.

(** C1, the code at the failing input. The lead-time token of
    [nos.cbofs.fields.f003.20220701.t00z.next.nc] is the forecast one,
    [.f003.], and the name matches neither [*.nowcast.*] nor
    [*.forecast.*]: the date plus [0 + 3] hours is 2022-07-01 03:00.
    [file2dt] returns 2022-06-30 21:00. The test the code comments with
    "if nowcast file, subtract 6 hours" is the glob [*.n???.*], which
    the field [.next.] matches, so the six hours of a nowcast file are
    taken off a forecast file. Without that field the same tokens are
    decoded to 03:00, and the nowcast name of the scenario,
    [nos.cbofs.fields.n003.20220701.t00z.nc], to 21:00 of the day
    before. *)
Theorem C1_forecast_token_shifted :
  to_datetime $"nos.cbofs.fields.f003.20220701.t00z.next.nc"
  = Ok (timestamp 2022 7 1 0)
  /\ cycle_of $"nos.cbofs.fields.f003.20220701.t00z.next.nc" = Ok 0
  /\ lead_of $"nos.cbofs.fields.f003.20220701.t00z.next.nc" = Ok 3
  /\ findall re_lead 0 $"nos.cbofs.fields.f003.20220701.t00z.next.nc"
     = [$".f003."]
  /\ single_step $"nos.cbofs.fields.f003.20220701.t00z.next.nc" = true
  /\ fnmatch $"nos.cbofs.fields.f003.20220701.t00z.next.nc" $"*.n???.*" = true
  /\ file2dt $"nos.cbofs.fields.f003.20220701.t00z.next.nc"
     = Ok (Single (timestamp 2022 6 30 21))
  /\ file2dt $"nos.cbofs.fields.f003.20220701.t00z.nc"
     = Ok (Single (timestamp 2022 7 1 3))
  /\ file2dt $"nos.cbofs.fields.n003.20220701.t00z.nc"
     = Ok (Single (timestamp 2022 6 30 21)).
Proof.
  repeat split; vm_compute; reflexivity.
Qed.

(** ** file2dt on the names with several time steps, and on the other names *)

Lemma ts_ok_between (a b x : Z) :
  ts_ok a = true -> ts_ok b = true -> a <= x <= b -> ts_ok x = true.
Proof.
  unfold ts_ok. rewrite !andb_true_iff, !Z.leb_le. lia.
Qed.

Lemma mapM_ts_add_hours (date : Z) (f : Z -> Z) (l : list Z) :
  (forall x, In x l -> ts_ok (date + f x * HOUR) = true) ->
  mapM (fun dt => ts_add_hours date (f dt)) l
  = Ok (map (fun dt => date + f dt * HOUR) l).
Proof.
  induction l as [|x l IH]; simpl; intros H.
  - reflexivity.
  - unfold ts_add_hours at 1. rewrite (H x (or_introl eq_refl)). simpl.
    rewrite IH by (intros y Hy; apply H; now right). reflexivity.
Qed.

Lemma In_range (n : nat) (x : Z) : In x (range n) -> 0 <= x < Z.of_nat n.
Proof.
  unfold range. rewrite in_map_iff. intros (k & <- & Hk).
  apply in_seq in Hk. lia.
Qed.

Lemma HOUR_pos : 0 < HOUR.
Proof. reflexivity. Qed.

(** The forecast branch for a model with [nfiles] steps. *)
Lemma forecast_steps (date cycle : Z) (nfiles : nat) :
  (0 < nfiles)%nat ->
  ts_ok (date + (cycle + 1) * HOUR) = true ->
  ts_ok (date + (cycle + Z.of_nat nfiles) * HOUR) = true ->
  mapM (fun dt => ts_add_hours date (cycle + 1 + dt)) (range nfiles)
  = Ok (map (fun dt => date + (cycle + 1 + dt) * HOUR) (range nfiles)).
Proof.
  intros Hn Hlo Hhi. apply mapM_ts_add_hours with (f := fun dt => cycle + 1 + dt).
  intros x Hx. apply In_range in Hx.
  eapply ts_ok_between; [exact Hlo | exact Hhi |].
  pose proof HOUR_pos. nia.
Qed.

(** C8: a [*.nowcast.*] file decodes to the six hourly times from
    [cycle - 5] to [cycle] hours after the parsed date, in ascending
    order; a [*.forecast.*] file decodes to 60 hourly times for lsofs and
    loofs and to 54 for nyofs, from [cycle + 1] hours on; a forecast file
    of any other model raises ([nfiles] is unbound) instead of using some
    default length. The times have to be Timestamps pandas can hold. *)
Theorem C8_file2dt_multi_timestep (filename : str) (date cycle : Z) :
  to_datetime (basename filename) = Ok date ->
  cycle_of (basename filename) = Ok cycle ->
  (fnmatch (basename filename) $"*.nowcast.*" = true ->
   ts_ok (date + (cycle - 5) * HOUR) = true ->
   ts_ok (date + cycle * HOUR) = true ->
   file2dt filename
   = Ok (Multi [date + (cycle - 5) * HOUR; date + (cycle - 4) * HOUR;
                date + (cycle - 3) * HOUR; date + (cycle - 2) * HOUR;
                date + (cycle - 1) * HOUR; date + cycle * HOUR]))
  /\ (fnmatch (basename filename) $"*.nowcast.*" = false ->
      fnmatch (basename filename) $"*.forecast.*" = true ->
      (contains $"lsofs" (basename filename)
       || contains $"loofs" (basename filename) = true ->
       ts_ok (date + (cycle + 1) * HOUR) = true ->
       ts_ok (date + (cycle + 60) * HOUR) = true ->
       file2dt filename
       = Ok (Multi (map (fun dt => date + (cycle + 1 + dt) * HOUR) (range 60))))
      /\ (contains $"lsofs" (basename filename)
          || contains $"loofs" (basename filename) = false ->
          contains $"nyofs" (basename filename) = true ->
          ts_ok (date + (cycle + 1) * HOUR) = true ->
          ts_ok (date + (cycle + 54) * HOUR) = true ->
          file2dt filename
          = Ok (Multi (map (fun dt => date + (cycle + 1 + dt) * HOUR) (range 54))))
      /\ (contains $"lsofs" (basename filename)
          || contains $"loofs" (basename filename) = false ->
          contains $"nyofs" (basename filename) = false ->
          file2dt filename = Raise UnboundLocalError)).
Proof.
  intros Hd Hc. unfold file2dt. cbv zeta. rewrite Hd, Hc. cbn [bind].
  split.
  - intros Hnow Hlo Hhi. rewrite Hnow.
    rewrite (mapM_ts_add_hours date (fun dt => cycle - dt)).
    + unfold range.
      cbn [map rev seq app Z.of_nat Pos.of_succ_nat Pos.succ].
      now rewrite Z.sub_0_r.
    + intros x Hx.
      assert (0 <= x <= 5) as Hx5.
      { simpl in Hx. intuition lia. }
      eapply ts_ok_between; [exact Hlo | exact Hhi |].
      pose proof HOUR_pos. nia.
  - intros Hnow Hfore. rewrite Hnow, Hfore. repeat split.
    + intros Hls Hlo Hhi. rewrite Hls. cbn [bind].
      rewrite forecast_steps; auto. lia.
    + intros Hls Hny Hlo Hhi. rewrite Hls, Hny. cbn [bind].
      rewrite forecast_steps; auto. lia.
    + intros Hls Hny. rewrite Hls, Hny. reflexivity.
Qed.

Lemma C8_file2dt_multi_timestep_witness :
  file2dt $"glofs.lsofs.fields.nowcast.20220701.t06z.nc"
  = Ok (Multi [timestamp 2022 7 1 1; timestamp 2022 7 1 2; timestamp 2022 7 1 3;
               timestamp 2022 7 1 4; timestamp 2022 7 1 5; timestamp 2022 7 1 6])
  /\ file2dt $"nos.nyofs.fields.forecast.20220701.t05z.nc"
     = Ok (Multi (map (fun dt => timestamp 2022 7 1 (6 + dt)) (range 54)))
  /\ file2dt $"nos.cbofs.fields.forecast.20220701.t00z.nc" = Raise UnboundLocalError.
Proof.
  split; [|split].
  - refine (eq_trans
              (proj1 (C8_file2dt_multi_timestep
                        $"glofs.lsofs.fields.nowcast.20220701.t06z.nc"
                        (timestamp 2022 7 1 0) 6 _ _) _ _ _) _);
      vm_compute; reflexivity.
  - refine (eq_trans
              (proj1 (proj2 (proj2 (C8_file2dt_multi_timestep
                        $"nos.nyofs.fields.forecast.20220701.t05z.nc"
                        (timestamp 2022 7 1 0) 5 _ _) _ _)) _ _ _ _) _);
      vm_compute; reflexivity.
  - refine (proj2 (proj2 (proj2 (C8_file2dt_multi_timestep
                        $"nos.cbofs.fields.forecast.20220701.t00z.nc"
                        (timestamp 2022 7 1 0) 0 _ _) _ _)) _ _);
      vm_compute; reflexivity.
Defined.

(** C4, as stated, fails: a name with a date and a cycle token that is of
    none of the four families is decoded without any error, to the
    parsed date. *)
Lemma C4_unmatched_name_is_decoded :
  to_datetime $"nos.cbofs.fields.20220701.t00z.nc" = Ok (timestamp 2022 7 1 0)
  /\ cycle_of $"nos.cbofs.fields.20220701.t00z.nc" = Ok 0
  /\ fnmatch $"nos.cbofs.fields.20220701.t00z.nc" $"*.nowcast.*" = false
  /\ fnmatch $"nos.cbofs.fields.20220701.t00z.nc" $"*.forecast.*" = false
  /\ fnmatch $"nos.cbofs.fields.20220701.t00z.nc" $"*.n???.*" = false
  /\ fnmatch $"nos.cbofs.fields.20220701.t00z.nc" $"*.f???.*" = false
  /\ file2dt $"nos.cbofs.fields.20220701.t00z.nc" = Ok (Single (timestamp 2022 7 1 0)).
Proof.
  repeat split; vm_compute; reflexivity.
Qed.

(** C4, amended: for a name with a parseable date and a cycle token that
    matches none of the four families, [file2dt] raises nothing and
    returns one Timestamp, the parsed date at 00:00 (the cycle is not
    used). *)
Theorem C4_file2dt_unmatched_returns_date (filename : str) (date cycle : Z) :
  to_datetime (basename filename) = Ok date ->
  cycle_of (basename filename) = Ok cycle ->
  fnmatch (basename filename) $"*.nowcast.*" = false ->
  fnmatch (basename filename) $"*.forecast.*" = false ->
  fnmatch (basename filename) $"*.n???.*" = false ->
  fnmatch (basename filename) $"*.f???.*" = false ->
  file2dt filename = Ok (Single date).
Proof.
  intros Hd Hc H1 H2 H3 H4. unfold file2dt. cbv zeta.
  rewrite Hd, Hc. cbn [bind]. rewrite H1, H2, H3, H4. reflexivity.
Qed.

Lemma C4_file2dt_unmatched_returns_date_witness :
  file2dt $"https://www.ncei.noaa.gov/thredds/dodsC/model-cbofs-files/2022/07/nos.cbofs.stations.20220701.t12z.nc"
  = Ok (Single (timestamp 2022 7 1 0)).
Proof.
  apply (C4_file2dt_unmatched_returns_date _ (timestamp 2022 7 1 0) 12);
    vm_compute; reflexivity.
Defined.

(** ** is_fresh *)


Lemma split_aux_field (sep : ascii) (field rest : str) : forall cur,
  forallb (fun c => negb (Ascii.eqb c sep)) field = true ->
  split_aux sep cur (field ++ sep :: rest)
  = (rev cur ++ field) :: split_aux sep [] rest.
Proof.
  induction field as [|c field IH]; intros cur Hfield; simpl.
  - rewrite Ascii.eqb_refl, app_nil_r. reflexivity.
  - simpl in Hfield. apply andb_true_iff in Hfield. destruct Hfield as [Hc Hfield].
    apply negb_true_iff in Hc. rewrite Hc, (IH _ Hfield). simpl.
    now rewrite <- app_assoc.
Qed.


Lemma item1_second_field (sep : ascii) (first second rest : str) :
  forallb (fun c => negb (Ascii.eqb c sep)) first = true ->
  forallb (fun c => negb (Ascii.eqb c sep)) second = true ->
  item1 (split sep (first ++ sep :: second ++ sep :: rest)) = Ok second.
Proof.
  intros H1 H2. unfold split.
  rewrite (split_aux_field sep first _ [] H1), (split_aux_field sep second _ [] H2).
  reflexivity.
Qed.






(** ** remove_duplicates never raises and is a filter *)

Lemma pop_value_here (x : str) (l : list str) : pop_value x (x :: l) = Ok l.
Proof.
  unfold pop_value. simpl. now rewrite str_eqb_refl.
Qed.

Lemma pop_value_later (x y : str) (l : list str) :
  y <> x ->
  pop_value x (y :: l) = (l' <- pop_value x l ;; Ok (y :: l')).
Proof.
  intros Hne. unfold pop_value. simpl.
  apply str_eqb_neq in Hne. rewrite Hne.
  destruct (index_of x l); reflexivity.
Qed.

Lemma pop_all_later (r : list str) : forall (y : str) (l : list str),
  (forall f, In f r -> f <> y) ->
  pop_all r (y :: l) = (l' <- pop_all r l ;; Ok (y :: l')).
Proof.
  induction r as [|f r IH]; intros y l Hr; simpl.
  - reflexivity.
  - rewrite pop_value_later.
    + destruct (pop_value f l) as [l1|e]; simpl.
      * apply IH. intros g Hg. apply Hr. now right.
      * reflexivity.
    + intros ->. apply (Hr f); [now left | reflexivity].
Qed.

Lemma pop_all_filter (m : str -> bool) (l : list str) :
  pop_all (filter m l) l = Ok (filter (fun n => negb (m n)) l).
Proof.
  induction l as [|x l IH]; simpl.
  - reflexivity.
  - destruct (m x) eqn:Hx; simpl.
    + rewrite pop_value_here. simpl. exact IH.
    + rewrite pop_all_later.
      * rewrite IH. reflexivity.
      * intros f Hf ->. apply filter_In in Hf. destruct Hf as [_ Hf]. congruence.
Qed.

Lemma remove_duplicates_filter (filenames : list str) (pattern : str) :
  remove_duplicates filenames pattern
  = Ok (filter (fun n => negb (fnmatch n pattern)) filenames).
Proof.
  unfold remove_duplicates, fnmatch_filter.
  destruct (0 <? length (filter (fun n => fnmatch n pattern) filenames))%nat eqn:Hlen.
  - apply pop_all_filter.
  - apply Nat.ltb_ge in Hlen.
    rewrite <- (pop_all_filter (fun n => fnmatch n pattern)).
    destruct (filter (fun n => fnmatch n pattern) filenames); simpl in *;
      [reflexivity | lia].
Qed.

Lemma remove_duplicates_none_left (filenames l : list str) (pattern : str) :
  remove_duplicates filenames pattern = Ok l ->
  forall u, In u l -> fnmatch u pattern = false.
Proof.
  rewrite remove_duplicates_filter. intros [= <-] u Hu.
  apply filter_In in Hu. destruct Hu as [_ Hu].
  now apply negb_true_iff in Hu.
Qed.

(** ** agg_for_date *)

(** The forecast branch, written with the named intermediate lists. *)
Lemma agg_for_date_forecast (date : Z) (strings : list str) (filetype : str)
  (pattern : option str) :
  agg_for_date date strings filetype true pattern =
  (let pat := day_pattern date filetype pattern in
   cycle <- select_cycle strings ;;
   fnames_fore <- forecast_of_cycle strings pat cycle ;;
   fnames_now <- find_nowcast_cycles strings pat ;;
   match nowcast_of_cycle strings pat cycle ++ fnames_fore with
   | [] => Raise SelectionError
   | first :: rest =>
       i <- of_option NotInList (index_of first fnames_now) ;;
       remove_duplicates (firstn i fnames_now ++ first :: rest) $"*.n000.*"
   end).
Proof.
  unfold agg_for_date, forecast_of_cycle, nowcast_of_cycle, pattern2_of, pattern1_of.
  cbv zeta.
  destruct (select_cycle strings) as [cycle|e]; simpl; [|reflexivity].
  match goal with
  | |- context [remove_duplicates ?l ?p] => destruct (remove_duplicates l p) as [fore|e]
  end; simpl; [|reflexivity].
  match goal with
  | |- context [find_nowcast_cycles ?l ?p] => destruct (find_nowcast_cycles l p) as [now|e]
  end; simpl; [|reflexivity].
  match goal with
  | |- context [match ?l ++ fore with _ => _ end] => destruct (l ++ fore)
  end; reflexivity.
Qed.

Lemma index_of_absent (x : str) (l : list str) :
  ~ In x l -> index_of x l = None.
Proof.
  induction l as [|y l IH]; simpl; intros Hn.
  - reflexivity.
  - destruct (str_eqb y x) eqn:E.
    + apply str_eqb_eq in E. exfalso. apply Hn. now left.
    + rewrite IH; [reflexivity | intros H; apply Hn; now right].
Qed.

Lemma find_nowcast_cycles_exn (strings : list str) (pattern : str) (e : exn) :
  find_nowcast_cycles strings pattern = Raise e -> e = IndexError.
Proof.
  unfold find_nowcast_cycles.
  generalize (sorted (fnmatch_filter strings pattern)) as l.
  intros l H. apply bind_Raise in H. destruct H as [H | (a & _ & H)]; [|discriminate].
  revert e H. induction l as [|f l IH]; simpl; intros e H; [discriminate|].
  apply bind_Raise in H. destruct H as [H | (a & _ & H)].
  - apply bind_Raise in H. destruct H as [H | (b & _ & H)]; [|discriminate].
    unfold second_last in H. destruct (rev (split "." f)) as [|? [|? ?]]; congruence.
  - apply bind_Raise in H. destruct H as [H | (b & _ & H)]; [|discriminate].
    now apply IH.
Qed.

Lemma find_nowcast_cycles_In (strings : list str) (pattern : str)
  (fnames_now : list str) :
  find_nowcast_cycles strings pattern = Ok fnames_now ->
  forall u, In u fnames_now -> In u strings /\ fnmatch u pattern = true.
Proof.
  unfold find_nowcast_cycles. intros H u Hu.
  apply bind_Ok in H. destruct H as (keyed & Hkeyed & H). injection H as <-.
  apply in_map_iff in Hu. destruct Hu as ([key parts] & <- & Hkp).
  apply In_sorted_by in Hkp.
  destruct (mapM_Ok_In _ _ _ Hkeyed _ Hkp) as (fname & Hf & Hk).
  apply bind_Ok in Hk. destruct Hk as (key' & _ & Hk). injection Hk as _ <-.
  simpl snd. change $"." with ["."%char]. rewrite join_split.
  apply In_sorted_by in Hf. unfold fnmatch_filter in Hf.
  now apply filter_In in Hf.
Qed.

Lemma select_cycle_exn (strings : list str) (e : exn) :
  select_cycle strings = Raise e -> e = IndexError.
Proof.
  unfold select_cycle, last_item.
  match goal with |- context [rev ?l] => destruct (rev l) end; congruence.
Qed.

Lemma forecast_of_cycle_total (strings : list str) (pattern cycle : str) :
  exists fore, forecast_of_cycle strings pattern cycle = Ok fore.
Proof.
  unfold forecast_of_cycle. rewrite remove_duplicates_filter. eauto.
Qed.

(** C3: whatever the date, the candidate list, the file type, the
    forecast flag and the pattern, no URL of a list returned by
    [agg_for_date] matches [*.n000.*]; both branches end with the removal
    of these files. *)
Theorem C3_agg_for_date_drops_n000 (date : Z) (strings : list str)
  (filetype : str) (is_forecast : bool) (pattern : option str)
  (fnames : list str) :
  agg_for_date date strings filetype is_forecast pattern = Ok fnames ->
  forall url, In url fnames -> fnmatch url $"*.n000.*" = false.
Proof.
  destruct is_forecast.
  - rewrite agg_for_date_forecast. cbv zeta. intros H.
    apply bind_Ok in H. destruct H as (cycle & _ & H).
    apply bind_Ok in H. destruct H as (fore & _ & H).
    apply bind_Ok in H. destruct H as (now & _ & H).
    destruct (nowcast_of_cycle _ _ _ ++ fore) as [|first rest]; [discriminate|].
    apply bind_Ok in H. destruct H as (i & _ & H).
    eapply remove_duplicates_none_left; eassumption.
  - unfold agg_for_date. intros H.
    apply bind_Ok in H. destruct H as (now & _ & H).
    eapply remove_duplicates_none_left; eassumption.
Qed.

Lemma C3_agg_for_date_drops_n000_witness :
  agg_for_date (timestamp 2022 7 1 0)
    [cbofs "n000" "00"; cbofs "n001" "00"; cbofs "f000" "00"; cbofs "f001" "00"]
    $"fields" true None
  = Ok [cbofs "n001" "00"; cbofs "f001" "00"]
  /\ forall url, In url [cbofs "n001" "00"; cbofs "f001" "00"] ->
                 fnmatch url $"*.n000.*" = false.
Proof.
  split.
  - vm_compute. reflexivity.
  - apply (C3_agg_for_date_drops_n000 (timestamp 2022 7 1 0)
             [cbofs "n000" "00"; cbofs "n001" "00"; cbofs "f000" "00"; cbofs "f001" "00"]
             $"fields" true None).
    vm_compute. reflexivity.
Defined.

(** C2, as stated, fails: with nowcast files of the selected cycle and no
    forecast file at all, the forecast branch returns the nowcast files
    and raises nothing. *)
Lemma C2_no_forecast_files_returned :
  select_cycle [cbofs "n001" "00"; cbofs "n002" "00"] = Ok $"00"
  /\ forecast_of_cycle [cbofs "n001" "00"; cbofs "n002" "00"]
       (day_pattern (timestamp 2022 7 1 0) $"fields" None) $"00" = Ok []
  /\ agg_for_date (timestamp 2022 7 1 0) [cbofs "n001" "00"; cbofs "n002" "00"]
       $"fields" true None
     = Ok [cbofs "n001" "00"; cbofs "n002" "00"].
Proof.
  repeat split; vm_compute; reflexivity.
Qed.

(** C2, amended: for a plain file type or custom pattern ([plain_day]:
    no bracket, brace, quote, backslash or end of line, and no [%] in
    the file type), with the forecast tail requested, [agg_for_date]
    raises the selection error exactly when a cycle was selected, the
    scan of the nowcast files of the day went through, and neither a
    nowcast nor a forecast file of the selected cycle was found. *)
Theorem C2_selection_error_iff_nothing_found (date : Z) (strings : list str)
  (filetype : str) (pattern : option str) :
  plain_day filetype pattern = true ->
  agg_for_date date strings filetype true pattern = Raise SelectionError
  <->
  exists cycle fnames_now,
    select_cycle strings = Ok cycle
    /\ find_nowcast_cycles strings (day_pattern date filetype pattern) = Ok fnames_now
    /\ nowcast_of_cycle strings (day_pattern date filetype pattern) cycle = []
    /\ forecast_of_cycle strings (day_pattern date filetype pattern) cycle = Ok [].
Proof.
  intros _. rewrite agg_for_date_forecast. cbv zeta.
  set (pat := day_pattern date filetype pattern).
  split.
  - intros H.
    destruct (select_cycle strings) as [cycle|e] eqn:Hc; simpl in H.
    2:{ apply select_cycle_exn in Hc. congruence. }
    destruct (forecast_of_cycle_total strings pat cycle) as [fore Hf].
    rewrite Hf in H. simpl in H.
    destruct (find_nowcast_cycles strings pat) as [now|e] eqn:Hn; simpl in H.
    2:{ apply find_nowcast_cycles_exn in Hn. congruence. }
    destruct (nowcast_of_cycle strings pat cycle) as [|n ns] eqn:Hnc; simpl in H.
    + destruct fore as [|f fs].
      * exists cycle, now. auto.
      * destruct (index_of f now); simpl in H;
          [rewrite remove_duplicates_filter in H|]; discriminate.
    + destruct (index_of n now); simpl in H;
        [rewrite remove_duplicates_filter in H|]; discriminate.
  - intros (cycle & now & Hc & Hn & Hnc & Hf).
    rewrite Hc. simpl. rewrite Hf. simpl. rewrite Hn. simpl. rewrite Hnc.
    reflexivity.
Qed.

Lemma C2_selection_error_iff_nothing_found_witness :
  agg_for_date (timestamp 2022 7 1 0)
    [$"nos.cbofs.stations.nowcast.20220701.t00z.nc"] $"fields" true None
  = Raise SelectionError.
Proof.
  apply (proj2 (C2_selection_error_iff_nothing_found (timestamp 2022 7 1 0)
                  [$"nos.cbofs.stations.nowcast.20220701.t00z.nc"] $"fields" None
                  eq_refl)).
  exists $"00", []. repeat split; vm_compute; reflexivity.
Defined.

(** C10, as stated, fails: the only candidate is a forecast file of the
    cycle 06 whose name also matches the nowcast pattern of the day (it
    holds the fields [.n001.20220701.t00z.]). The selected cycle, 06,
    has this forecast file and no nowcast file, yet the file is in the
    list of [find_nowcast_cycles], the lookup finds it and the file is
    returned. *)
Lemma C10_forecast_file_found :
  select_cycle [$"nos.cbofs.fields.f001.20220701.t06z.n001.20220701.t00z.nc"]
  = Ok $"06"
  /\ nowcast_of_cycle [$"nos.cbofs.fields.f001.20220701.t06z.n001.20220701.t00z.nc"]
       (day_pattern (timestamp 2022 7 1 0) $"fields" None) $"06" = []
  /\ forecast_of_cycle [$"nos.cbofs.fields.f001.20220701.t06z.n001.20220701.t00z.nc"]
       (day_pattern (timestamp 2022 7 1 0) $"fields" None) $"06"
     = Ok [$"nos.cbofs.fields.f001.20220701.t06z.n001.20220701.t00z.nc"]
  /\ find_nowcast_cycles
       [$"nos.cbofs.fields.f001.20220701.t06z.n001.20220701.t00z.nc"]
       (day_pattern (timestamp 2022 7 1 0) $"fields" None)
     = Ok [$"nos.cbofs.fields.f001.20220701.t06z.n001.20220701.t00z.nc"]
  /\ agg_for_date (timestamp 2022 7 1 0)
       [$"nos.cbofs.fields.f001.20220701.t06z.n001.20220701.t00z.nc"]
       $"fields" true None
     = Ok [$"nos.cbofs.fields.f001.20220701.t06z.n001.20220701.t00z.nc"].
Proof.
  repeat split; vm_compute; reflexivity.
Qed.

(** C10, amended: for a plain file type or custom pattern ([plain_day]),
    with the forecast tail requested, when the selected cycle has
    forecast files but no nowcast file, the combined list starts with a
    forecast file. When that file is no match of the day's nowcast
    pattern (as a forecast file with the single lead-time token [.fLLL.]
    is not), it is absent from the nowcast files of the day, and the
    [index] lookup of the prepend step raises its [ValueError]
    ([NotInList]): neither the forecast files are returned nor the
    selection error is raised. *)
Theorem C10_forecast_without_nowcast_raises (date : Z) (strings : list str)
  (filetype : str) (pattern : option str) (cycle : str)
  (first : str) (rest fnames_now : list str) :
  plain_day filetype pattern = true ->
  select_cycle strings = Ok cycle ->
  nowcast_of_cycle strings (day_pattern date filetype pattern) cycle = [] ->
  forecast_of_cycle strings (day_pattern date filetype pattern) cycle
    = Ok (first :: rest) ->
  find_nowcast_cycles strings (day_pattern date filetype pattern) = Ok fnames_now ->
  fnmatch first (day_pattern date filetype pattern) = false ->
  hd_error (nowcast_of_cycle strings (day_pattern date filetype pattern) cycle
            ++ first :: rest) = Some first
  /\ ~ In first fnames_now
  /\ agg_for_date date strings filetype true pattern = Raise NotInList.
Proof.
  intros _ Hc Hnc Hf Hn Hpat.
  assert (~ In first fnames_now) as Habs.
  { intros Hin. apply (find_nowcast_cycles_In _ _ _ Hn) in Hin. destruct Hin. congruence. }
  split; [|split].
  - rewrite Hnc. reflexivity.
  - exact Habs.
  - rewrite agg_for_date_forecast. cbv zeta.
    rewrite Hc. simpl. rewrite Hf. simpl. rewrite Hn. simpl. rewrite Hnc. simpl.
    rewrite (index_of_absent _ _ Habs). reflexivity.
Qed.

Lemma C10_forecast_without_nowcast_raises_witness :
  agg_for_date (timestamp 2022 7 1 0)
    [cbofs "n001" "00"; cbofs "f001" "06"; cbofs "f002" "06"] $"fields" true None
  = Raise NotInList.
Proof.
  refine (proj2 (proj2 (C10_forecast_without_nowcast_raises (timestamp 2022 7 1 0)
                   [cbofs "n001" "00"; cbofs "f001" "06"; cbofs "f002" "06"]
                   $"fields" None $"06" (cbofs "f001" "06") [cbofs "f002" "06"]
                   [cbofs "n001" "00"] _ _ _ _ _ _)));
    vm_compute; reflexivity.
Defined.

(** When no candidate at all matches the day's nowcast pattern and the
    selected cycle has a forecast file, the lookup fails whatever the
    combined list starts with: the list searched is empty. *)
Lemma agg_for_date_no_nowcast_of_day (date : Z) (strings : list str)
  (filetype : str) (pattern : option str) (cycle : str)
  (first : str) (rest : list str) :
  select_cycle strings = Ok cycle ->
  forecast_of_cycle strings (day_pattern date filetype pattern) cycle
    = Ok (first :: rest) ->
  fnmatch_filter strings (day_pattern date filetype pattern) = [] ->
  find_nowcast_cycles strings (day_pattern date filetype pattern) = Ok []
  /\ agg_for_date date strings filetype true pattern = Raise NotInList.
Proof.
  intros Hc Hf Hnone.
  assert (find_nowcast_cycles strings (day_pattern date filetype pattern) = Ok [])
    as Hn by (unfold find_nowcast_cycles; rewrite Hnone; reflexivity).
  split; [exact Hn|].
  rewrite agg_for_date_forecast. cbv zeta.
  rewrite Hc. simpl. rewrite Hf. simpl. rewrite Hn. simpl.
  destruct (nowcast_of_cycle strings (day_pattern date filetype pattern) cycle);
    reflexivity.
Qed.

(** ** find_catrefs *)

Lemma Forall_flat_map {A B} (P : B -> Prop) (f : A -> list B) (l : list A) :
  (forall a, In a l -> Forall P (f a)) -> Forall P (flat_map f l).
Proof.
  intros H. apply Forall_forall. intros b Hb.
  apply in_flat_map in Hb. destruct Hb as (a & Ha & Hb).
  specialize (H a Ha). rewrite Forall_forall in H. auto.
Qed.

(** Every tuple [find_catrefs] returns has the same length: 3 when the
    probe of the first path shows more than one reference, 2 otherwise. *)
Lemma find_catrefs_uniform_length (cat : catalog) (catrefs : list catref) :
  find_catrefs cat = Ok catrefs ->
  Forall (fun t => length t = 2%nat) catrefs
  \/ Forall (fun t => length t = 3%nat) catrefs.
Proof.
  unfold find_catrefs. intros H.
  apply bind_Ok in H. destruct H as (l1 & _ & H).
  apply bind_Ok in H. destruct H as (first & _ & H).
  apply bind_Ok in H. destruct H as (probe & _ & H).
  destruct (1 <? length probe)%nat.
  - apply bind_Ok in H. destruct H as (l2 & _ & H). injection H as <-.
    right. apply Forall_flat_map. intros [c c2] _.
    apply Forall_forall. intros t Ht. apply in_map_iff in Ht.
    destruct Ht as (x & <- & _). reflexivity.
  - injection H as <-. left.
    apply Forall_forall. intros t Ht. apply in_map_iff in Ht.
    destruct Ht as (x & <- & _). reflexivity.
Qed.

(** C7, the code at the failing input: below the first (year, month)
    path there is a third level, holding the single day [01], and
    [find_catrefs] does not descend to it: the test is
    [len(cat_ref_test) > 1]. With two days it does. *)
Theorem C7_find_catrefs_single_day_not_descended :
  refs_below one_day_tree $"2022" $"07" = Ok [$"01"]
  /\ find_catrefs one_day_tree = Ok [[$"2022"; $"07"]]
  /\ find_catrefs two_day_tree
     = Ok [[$"2022"; $"07"; $"01"]; [$"2022"; $"07"; $"02"]].
Proof.
  repeat split; vm_compute; reflexivity.
Qed.

(** ** find_datetimes: the start *)

Lemma gap_starts_cons (prev : option Z) (t : Z) (rest : list Z) :
  gap_starts prev (t :: rest)
  = (if match prev with None => false | Some p => DAY <? t - p end
     then [t] else []) ++ gap_starts (Some t) rest.
Proof.
  unfold gap_starts, where_dropna. simpl.
  destruct (match prev with None => false | Some p => DAY <? t - p end); reflexivity.
Qed.

Lemma existsb_diff_over_day (index : list Z) : forall prev,
  existsb (fun b => b) (diff_over_day prev index)
  = match gap_starts prev index with [] => false | _ => true end.
Proof.
  induction index as [|t rest IH]; intros prev.
  - reflexivity.
  - rewrite gap_starts_cons. simpl. rewrite IH.
    destruct (match prev with None => false | Some p => DAY <? t - p end); reflexivity.
Qed.

Lemma start_of_index_gap_starts (index : list Z) :
  start_of_index index
  = match gap_starts None index with
    | [] => of_option IndexError (hd_error index)
    | g :: gs => last_item (g :: gs)
    end.
Proof.
  unfold start_of_index. rewrite existsb_diff_over_day.
  fold (gap_starts None index). destruct (gap_starts None index); reflexivity.
Qed.

Lemma gap_starts_contiguous (index : list Z) : forall prev,
  contiguous_from prev index -> gap_starts (Some prev) index = [].
Proof.
  induction index as [|t rest IH]; intros prev H.
  - reflexivity.
  - destruct H as [Hle H]. rewrite gap_starts_cons, (IH _ H).
    apply Z.ltb_ge in Hle. now rewrite Hle.
Qed.

Lemma gap_starts_last_gap (before : list Z) (a b : Z) (after : list Z) :
  DAY < b - a -> contiguous_from b after ->
  forall prev, exists gs, gap_starts prev (before ++ a :: b :: after) = gs ++ [b].
Proof.
  intros Hgap Hafter. induction before as [|t before IH]; intros prev.
  - simpl. rewrite !gap_starts_cons, (gap_starts_contiguous _ _ Hafter).
    apply Z.ltb_lt in Hgap. rewrite Hgap.
    eexists. rewrite app_nil_r. reflexivity.
  - simpl. rewrite gap_starts_cons. destruct (IH (Some t)) as [gs ->].
    eexists. rewrite app_assoc. reflexivity.
Qed.

Lemma last_item_snoc {A} (l : list A) (x : A) : last_item (l ++ [x]) = Ok x.
Proof.
  unfold last_item. rewrite rev_app_distr. reflexivity.
Qed.

Lemma start_of_index_after_last_gap (before : list Z) (a b : Z) (after : list Z) :
  DAY < b - a -> contiguous_from b after ->
  start_of_index (before ++ a :: b :: after) = Ok b.
Proof.
  intros Hgap Hafter. rewrite start_of_index_gap_starts.
  destruct (gap_starts_last_gap before a b after Hgap Hafter None) as [gs ->].
  destruct gs as [|g gs]; [reflexivity|]. exact (last_item_snoc (g :: gs) b).
Qed.

Lemma start_of_index_no_gap (a : Z) (after : list Z) :
  contiguous_from a after -> start_of_index (a :: after) = Ok a.
Proof.
  intros H. rewrite start_of_index_gap_starts, gap_starts_cons.
  rewrite (gap_starts_contiguous _ _ H). reflexivity.
Qed.

Lemma insert_by_not_nil {A K} (key : A -> K) (leb : K -> K -> bool) (x : A)
  (l : list A) : insert_by key leb x l <> [].
Proof.
  destruct l; simpl; [|destruct (leb (key x) (key a))]; discriminate.
Qed.

Lemma sorted_not_nil (l : list str) : l <> [] -> sorted l <> [].
Proof.
  destruct l; [congruence|]. intros _. apply insert_by_not_nil.
Qed.

Lemma first_filelocs_skips (cat : catalog) (filetype : str)
  (skipped : list catref) (c : catref) (rest : list catref) (files : list str) :
  Forall (fun c' => find_filelocs c' cat filetype = Ok []) skipped ->
  find_filelocs c cat filetype = Ok files ->
  files <> [] ->
  first_filelocs cat filetype (skipped ++ c :: rest) = Ok (sorted files).
Proof.
  intros Hskip Hc Hne. induction Hskip as [|c' skipped Hc' _ IH]; simpl.
  - rewrite Hc. simpl. apply sorted_not_nil in Hne.
    destruct (sorted files); [congruence | reflexivity].
  - rewrite Hc'. simpl. exact IH.
Qed.

(** C5: the start of an aggregated source is computed from the files of
    the first catalog reference that has any (the references before it
    have none), decoded by [filedates2df]. When the decoded times have a
    gap of more than one day, the start is the time right after the last
    such gap; when they have none, it is the first decoded time. *)
Theorem C5_find_start_datetime (filedates2df : list str -> result (list Z))
  (cat : catalog) (filetype : str) (skipped : list catref) (c : catref)
  (rest : list catref) (files : list str) (index : list Z) :
  Forall (fun c' => find_filelocs c' cat filetype = Ok []) skipped ->
  find_filelocs c cat filetype = Ok files ->
  files <> [] ->
  filedates2df (sorted files) = Ok index ->
  (forall before a b after,
      index = before ++ a :: b :: after ->
      DAY < b - a ->
      contiguous_from b after ->
      find_start_datetime filedates2df cat filetype (skipped ++ c :: rest) = Ok b)
  /\ (forall a after,
        index = a :: after ->
        contiguous_from a after ->
        find_start_datetime filedates2df cat filetype (skipped ++ c :: rest) = Ok a).
Proof.
  intros Hskip Hc Hne Hidx.
  assert (find_start_datetime filedates2df cat filetype (skipped ++ c :: rest)
          = start_of_index index) as ->.
  { unfold find_start_datetime.
    rewrite (first_filelocs_skips _ _ _ _ _ _ Hskip Hc Hne). simpl.
    rewrite Hidx. reflexivity. }
  split.
  - intros before a b after -> Hgap Hafter.
    now apply start_of_index_after_last_gap.
  - intros a after -> Hafter. now apply start_of_index_no_gap.
Qed.

Lemma C5_find_start_datetime_witness :
  find_start_datetime filedates2df two_month_tree $"fields"
    [[$"2022"; $"06"]; [$"2022"; $"07"]]
  = Ok (timestamp 2022 6 30 0).
Proof.
  refine (proj1 (C5_find_start_datetime filedates2df two_month_tree $"fields"
                   [] [$"2022"; $"06"] [[$"2022"; $"07"]]
                   [cbofs_url "n006" "20220630" "12";
                    cbofs_url "n006" "20220627" "00";
                    cbofs_url "n006" "20220630" "00"]
                   [timestamp 2022 6 27 0; timestamp 2022 6 30 0;
                    timestamp 2022 6 30 12]
                   _ _ _ _)
                [] (timestamp 2022 6 27 0) (timestamp 2022 6 30 0)
                [timestamp 2022 6 30 12] _ _ _).
  - constructor.
  - vm_compute. reflexivity.
  - discriminate.
  - vm_compute. reflexivity.
  - reflexivity.
  - vm_compute. reflexivity.
  - vm_compute. split; [discriminate | exact I].
Defined.

(** ** select_date_range *)

Lemma DAY_pos : 0 < DAY.
Proof. reflexivity. Qed.

Lemma date_of_days (d : Z) : date_of (d * DAY) = d.
Proof.
  unfold date_of. apply Z.div_mul. pose proof DAY_pos. lia.
Qed.

Lemma date_of_next_day (t : Z) : date_of (t + DAY) = date_of t + 1.
Proof.
  unfold date_of. replace (t + DAY) with (t + 1 * DAY) by lia.
  apply Z.div_add. pose proof DAY_pos. lia.
Qed.

Lemma normalize_le (s e : Z) : normalize s <= e <-> date_of s <= date_of e.
Proof.
  unfold normalize, date_of. pose proof DAY_pos as HD. split; intros H.
  - apply Z.div_le_lower_bound; lia.
  - pose proof (Z.mul_div_le e DAY HD). nia.
Qed.

Lemma date_range_days (s e : Z) :
  date_range (normalize s) e
  = map (fun d => d * DAY) (days_between (date_of s) (date_of e)).
Proof.
  unfold date_range, days_between. pose proof DAY_pos as HD.
  destruct (normalize s <=? e) eqn:Hle.
  - apply Z.leb_le in Hle.
    assert ((e - normalize s) / DAY = date_of e - date_of s) as ->.
    { unfold normalize, date_of.
      replace (e - s / DAY * DAY) with (e + (- (s / DAY)) * DAY) by lia.
      rewrite Z.div_add by lia. lia. }
    rewrite map_map. apply map_ext. intros i. unfold normalize. lia.
  - apply Z.leb_gt in Hle.
    assert (date_of e < date_of s) as Hlt.
    { destruct (Z.lt_ge_cases (date_of e) (date_of s)) as [|Hge]; [assumption|].
      apply normalize_le in Hge. lia. }
    replace (Z.to_nat (date_of e - date_of s + 1)) with O by lia. reflexivity.
Qed.

Lemma loop_days_days (start_date : Z) (w : window) :
  loop_days start_date w
  = map (fun d => (d * DAY,
                   (d =? date_of (end_date_loop w))
                   && truthy (use_forecast_files w)))
        (days_between (date_of start_date) (date_of (end_date_loop w))).
Proof.
  unfold loop_days. rewrite date_range_days, map_map.
  apply map_ext. intros d. now rewrite date_of_days.
Qed.

(** C6: for an [end_date] on a day before today, when the caller did not
    ask for forecast files the loop runs over the days from the start
    day to the day after [end_date], none with the forecast flag; when
    the caller passed [use_forecast_files=True] the loop stops on the day
    of [end_date], that day alone carries the forecast flag, and the end
    bound of the final selection is [None]. *)
Theorem C6_select_date_range_past_end (choose_timing : option str -> result str)
  (today start_date end_date : Z) (timing : option str) (use_ff : option bool)
  (start_has_time end_has_time : bool)
  (chosen : str) (w : window) (days : list (Z * bool)) :
  date_of end_date < date_of today ->
  select_date_range choose_timing today start_date (Some end_date) timing
                    use_ff start_has_time end_has_time
  = Ok (chosen, w, days) ->
  (truthy use_ff = false ->
   end_date_loop w = end_date + DAY
   /\ days = map (fun d => (d * DAY, false))
                 (days_between (date_of start_date) (date_of end_date + 1)))
  /\ (truthy use_ff = true ->
      end_date_loop w = end_date
      /\ days = map (fun d => (d * DAY, d =? date_of end_date))
                    (days_between (date_of start_date) (date_of end_date))
      /\ end_date_sel w = None).
Proof.
  intros Hpast H. unfold select_date_range in H.
  destruct (date_of end_date <? date_of start_date); [discriminate|].
  destruct (date_sels start_date (Some end_date) start_has_time end_has_time)
    as [start_sel end_sel].
  unfold set_end_date_loop in H.
  assert ((date_of today <? date_of end_date) = false) as E1 by (apply Z.ltb_ge; lia).
  assert ((date_of end_date <? date_of today) = true) as E2 by (apply Z.ltb_lt; lia).
  rewrite E1, E2 in H.
  destruct (truthy use_ff) eqn:Hff;
    (destruct (choose_timing timing) as [tm|e]; cbn [bind] in H; [|discriminate]);
    rewrite ?Hff in H; cbn [andb] in H;
    try (destruct (str_eqb tm $"hindcast"); [discriminate|]);
    injection H as <- <- <-; rewrite loop_days_days; cbn [end_date_loop use_forecast_files end_date_sel];
    rewrite ?Hff; (split; [intros Hf | intros Ht]); try discriminate.
  - repeat split. apply map_ext. intros d. now rewrite andb_true_r.
  - rewrite date_of_next_day. split; [reflexivity|].
    apply map_ext. intros d. now rewrite andb_false_r.
Qed.

Lemma C6_select_date_range_past_end_witness :
  exists chosen w days,
    select_date_range named_timing (timestamp 2022 7 10 9) (timestamp 2022 7 1 0)
      (Some (timestamp 2022 7 3 0)) (Some $"nowcast") None false false
    = Ok (chosen, w, days)
    /\ end_date_loop w = timestamp 2022 7 3 0 + DAY
    /\ days = map (fun d => (d * DAY, false))
                  (days_between (date_of (timestamp 2022 7 1 0))
                                (date_of (timestamp 2022 7 3 0) + 1)).
Proof.
  do 3 eexists. split.
  - vm_compute. reflexivity.
  - refine (proj1 (C6_select_date_range_past_end named_timing
                     (timestamp 2022 7 10 9) (timestamp 2022 7 1 0)
                     (timestamp 2022 7 3 0) (Some $"nowcast") None false false
                     _ _ _ _ _) _).
    + vm_compute. reflexivity.
    + vm_compute. reflexivity.
    + reflexivity.
Defined.


(* ================================================================== *)
(** * Further properties of the code *)
(* ================================================================== *)

(** ** sorted: a stable sort *)

Section SortedBy.
Context {A K : Type} (key : A -> K) (leb : K -> K -> bool).
Hypothesis leb_total : forall a b, leb a b = true \/ leb b a = true.

Let le (x y : A) : Prop := leb (key x) (key y) = true.

Lemma insert_by_perm (x : A) (l : list A) :
  Permutation (insert_by key leb x l) (x :: l).
Proof.
  induction l as [|y l IH]; simpl.
  - apply Permutation_refl.
  - destruct (leb (key x) (key y)).
    + apply Permutation_refl.
    + eapply Permutation_trans; [apply perm_skip, IH | apply perm_swap].
Qed.

Lemma sorted_by_perm (l : list A) : Permutation (sorted_by key leb l) l.
Proof.
  induction l as [|x l IH]; simpl.
  - apply Permutation_refl.
  - eapply Permutation_trans; [apply insert_by_perm | apply perm_skip, IH].
Qed.

Lemma insert_by_sorted (x : A) (l : list A) :
  Sorted le l -> Sorted le (insert_by key leb x l).
Proof.
  induction 1 as [|y l Hl IH Hhd]; simpl.
  - repeat constructor.
  - destruct (leb (key x) (key y)) eqn:E.
    + constructor; [constructor; assumption | constructor; exact E].
    + constructor; [exact IH|].
      assert (le y x) as Hyx
          by (destruct (leb_total (key x) (key y)); [congruence | assumption]).
      destruct Hhd as [|z l' Hyz]; simpl.
      * constructor. exact Hyx.
      * destruct (leb (key x) (key z)); constructor; assumption.
Qed.

Lemma sorted_by_sorted (l : list A) : Sorted le (sorted_by key leb l).
Proof.
  induction l as [|x l IH]; simpl; [constructor | now apply insert_by_sorted].
Qed.

(** Stability: [x] is only moved over elements whose key is not above its
    own, so a filter that never keeps [x] together with such an element
    sees the same list. *)
Lemma insert_by_filter (p : A -> bool) (x : A) (l : list A) :
  (forall y, In y l -> leb (key x) (key y) = false -> p x = true -> p y = false) ->
  filter p (insert_by key leb x l) = filter p (x :: l).
Proof.
  induction l as [|y l IH]; intros H; simpl.
  - reflexivity.
  - destruct (leb (key x) (key y)) eqn:E.
    + reflexivity.
    + simpl. rewrite IH by (intros z Hz; apply H; now right). simpl.
      destruct (p x) eqn:Hx; [|reflexivity].
      rewrite (H y (or_introl eq_refl) E eq_refl). reflexivity.
Qed.

Lemma sorted_by_filter (p : A -> bool) (l : list A) :
  (forall x y, leb (key x) (key y) = false -> p x = true -> p y = false) ->
  filter p (sorted_by key leb l) = filter p l.
Proof.
  intros Hp. induction l as [|x l IH]; simpl.
  - reflexivity.
  - rewrite insert_by_filter by (intros y _; apply Hp). simpl. now rewrite IH.
Qed.

End SortedBy.

Lemma str_leb_refl (a : str) : str_leb a a = true.
Proof.
  induction a as [|x a IH]; simpl; [reflexivity|].
  now rewrite N.ltb_irrefl.
Qed.

Lemma str_leb_total (a b : str) : str_leb a b = true \/ str_leb b a = true.
Proof.
  revert b. induction a as [|x a IH]; intros [|y b]; simpl; auto.
  destruct (N.ltb_spec (N_of_ascii x) (N_of_ascii y)); [auto|].
  destruct (N.ltb_spec (N_of_ascii y) (N_of_ascii x)); [auto|].
  apply IH.
Qed.

Lemma str_leb_trans (a b c : str) :
  str_leb a b = true -> str_leb b c = true -> str_leb a c = true.
Proof.
  revert b c. induction a as [|x a IH]; intros [|y b] [|z c]; simpl;
    try congruence.
  destruct (N.ltb_spec (N_of_ascii x) (N_of_ascii y));
    destruct (N.ltb_spec (N_of_ascii y) (N_of_ascii x));
    destruct (N.ltb_spec (N_of_ascii y) (N_of_ascii z));
    destruct (N.ltb_spec (N_of_ascii z) (N_of_ascii y));
    destruct (N.ltb_spec (N_of_ascii x) (N_of_ascii z));
    destruct (N.ltb_spec (N_of_ascii z) (N_of_ascii x));
    try congruence; try lia.
  apply IH.
Qed.

Lemma sorted_perm (l : list str) : Permutation (sorted l) l.
Proof. apply sorted_by_perm. Qed.

Lemma mapM_Forall2 {A B} (k : A -> result B) (l : list A) (l' : list B) :
  mapM k l = Ok l' -> Forall2 (fun a b => k a = Ok b) l l'.
Proof.
  revert l'. induction l as [|x l IH]; simpl; intros l' H.
  - injection H as <-. constructor.
  - apply bind_Ok in H. destruct H as (y & Hy & H).
    apply bind_Ok in H. destruct H as (ys & Hys & H). injection H as <-.
    constructor; auto.
Qed.

Lemma mapM_total {A B} (k : A -> result B) (l : list A) :
  (forall a, In a l -> exists b, k a = Ok b) -> exists l', mapM k l = Ok l'.
Proof.
  induction l as [|x l IH]; simpl; intros H.
  - eauto.
  - destruct (H x (or_introl eq_refl)) as [y ->].
    destruct IH as [ys ->]; [intros a Ha; apply H; now right|].
    simpl. eauto.
Qed.

(** ** find_nowcast_cycles *)

(** A name matched by a pattern holds every literal character of the
    pattern. *)
Lemma fnmatch_pat_literal (c : ascii) (pat : str) : forall name,
  In c pat -> c <> "*"%char -> c <> "?"%char ->
  fnmatch_pat pat name = true -> In c name.
Proof.
  induction pat as [|p pat IH]; intros name Hin Hs Hq; [destruct Hin|].
  simpl. destruct (Ascii.eqb p "*") eqn:Estar.
  - apply Ascii.eqb_eq in Estar. subst p.
    destruct Hin as [Heq | Hin]; [congruence|].
    induction name as [|n name IHn].
    + destruct (fnmatch_pat pat []) eqn:E; [|discriminate].
      intros _. now apply (IH [] Hin Hs Hq).
    + destruct (fnmatch_pat pat (n :: name)) eqn:E.
      * intros _. now apply (IH _ Hin Hs Hq).
      * intros H. right. now apply IHn.
  - destruct name as [|n name]; [discriminate|].
    destruct (Ascii.eqb p "?") eqn:Eq.
    + apply Ascii.eqb_eq in Eq. subst p.
      destruct Hin as [Heq | Hin]; [congruence|].
      intros H. right. now apply (IH _ Hin Hs Hq).
    + destruct (Ascii.eqb p n) eqn:En; [|discriminate].
      apply Ascii.eqb_eq in En. subst n.
      destruct Hin as [Heq | Hin]; [now left|].
      intros H. right. now apply (IH _ Hin Hs Hq).
Qed.

Lemma split_aux_length (sep : ascii) (s : str) : forall cur,
  In sep s -> (2 <= length (split_aux sep cur s))%nat.
Proof.
  induction s as [|c s IH]; intros cur Hin; [destruct Hin|].
  simpl. destruct (Ascii.eqb c sep) eqn:E.
  - pose proof (split_aux_not_nil sep s []) as Hne.
    destruct (split_aux sep [] s); [congruence | simpl; lia].
  - apply IH. destruct Hin as [-> | Hin]; [|assumption].
    rewrite Ascii.eqb_refl in E. discriminate.
Qed.

Lemma second_last_total {A} (l : list A) :
  (2 <= length l)%nat -> exists x, second_last l = Ok x.
Proof.
  intros H. unfold second_last. rewrite <- length_rev in H.
  destruct (rev l) as [|a [|b r]]; simpl in H; try lia. eauto.
Qed.


Lemma Sorted_map {A B} (R : A -> A -> Prop) (R' : B -> B -> Prop) (f : A -> B)
  (l : list A) :
  (forall x y, In x l -> In y l -> R x y -> R' (f x) (f y)) ->
  Sorted R l -> Sorted R' (map f l).
Proof.
  intros Hf Hs. induction Hs as [|x l Hl IH Hhd]; simpl; constructor.
  - apply IH. intros a b Ha Hb. apply Hf; now right.
  - destruct Hhd as [|y l' Hxy]; simpl; constructor.
    apply Hf; [now left | right; now left | assumption].
Qed.

(** What the list comprehension of [find_nowcast_cycles] yields for a
    name whose key can be read. *)
Lemma keyed_name (fname : str) (kp : str * list str) :
  (k <- second_last (split "." fname) ;; Ok (k, split "." fname)) = Ok kp ->
  join $"." (snd kp) = fname /\ fst kp = cycle_field fname.
Proof.
  intros H. apply bind_Ok in H. destruct H as (k & Hk & H). injection H as <-.
  simpl. split.
  - exact (join_split "." fname).
  - unfold cycle_field. now rewrite Hk.
Qed.

Lemma keyed_names (filenames : list str) (keyed : list (str * list str)) :
  mapM (fun fname => k <- second_last (split "." fname) ;; Ok (k, split "." fname))
       filenames = Ok keyed ->
  map (fun kp => join $"." (snd kp)) keyed = filenames
  /\ forall kp, In kp keyed -> fst kp = cycle_field (join $"." (snd kp)).
Proof.
  intros H. apply mapM_Forall2 in H.
  induction H as [|f kp fs kps Hkp _ IH]; cbn [map].
  - split; [reflexivity | intros kp []].
  - destruct (keyed_name f kp Hkp) as [Hj Hk]. destruct IH as [IH1 IH2]. split.
    + now rewrite Hj, IH1.
    + intros kp' [<- | Hin]; [now rewrite Hj | now apply IH2].
Qed.

Lemma find_nowcast_cycles_Ok (strings : list str) (pattern : str)
  (fnames : list str) :
  find_nowcast_cycles strings pattern = Ok fnames ->
  exists keyed,
    fnames = map (fun kp => join $"." (snd kp)) (sorted_by fst str_leb keyed)
    /\ map (fun kp => join $"." (snd kp)) keyed
       = sorted (fnmatch_filter strings pattern)
    /\ forall kp, In kp keyed -> fst kp = cycle_field (join $"." (snd kp)).
Proof.
  unfold find_nowcast_cycles. intros H.
  apply bind_Ok in H. destruct H as (keyed & Hkeyed & H). injection H as <-.
  exists keyed. split; [reflexivity|]. now apply keyed_names.
Qed.

Lemma find_nowcast_cycles_total (strings : list str) (pattern : str) :
  In "."%char pattern -> exists fnames, find_nowcast_cycles strings pattern = Ok fnames.
Proof.
  intros Hdot. unfold find_nowcast_cycles.
  destruct (mapM_total
              (fun fname => k <- second_last (split "." fname) ;; Ok (k, split "." fname))
              (sorted (fnmatch_filter strings pattern))) as [keyed Hkeyed].
  { intros f Hf. apply In_sorted_by in Hf. apply filter_In in Hf.
    destruct Hf as [_ Hf].
    assert (In "."%char f) as Hin
        by (apply (fnmatch_pat_literal "." pattern f Hdot); [discriminate ..| exact Hf]).
    destruct (second_last_total (split "." f)) as [k Hk];
      [now apply split_aux_length|].
    rewrite Hk. simpl. eauto. }
  rewrite Hkeyed. cbn [bind]. eauto.
Qed.

Lemma find_nowcast_cycles_perm (strings : list str) (pattern : str)
  (fnames : list str) :
  find_nowcast_cycles strings pattern = Ok fnames ->
  Permutation fnames (fnmatch_filter strings pattern).
Proof.
  intros H. destruct (find_nowcast_cycles_Ok _ _ _ H) as (keyed & -> & Hnames & _).
  eapply Permutation_trans.
  - apply Permutation_map, sorted_by_perm.
  - rewrite Hnames. apply sorted_perm.
Qed.

Lemma find_nowcast_cycles_sorted (strings : list str) (pattern : str)
  (fnames : list str) :
  find_nowcast_cycles strings pattern = Ok fnames ->
  StronglySorted (fun a b => str_leb (cycle_field a) (cycle_field b) = true) fnames.
Proof.
  intros H. destruct (find_nowcast_cycles_Ok _ _ _ H) as (keyed & -> & _ & Hkeys).
  apply Sorted_StronglySorted.
  - intros a b c. apply str_leb_trans.
  - apply Sorted_map
      with (R := fun x y : str * list str => str_leb (fst x) (fst y) = true).
    + intros x y Hx Hy Hxy. apply In_sorted_by in Hx, Hy.
      now rewrite <- (Hkeys x Hx), <- (Hkeys y Hy).
    + apply sorted_by_sorted. intros a b. apply str_leb_total.
Qed.

Lemma find_nowcast_cycles_stable (strings : list str) (pattern : str)
  (fnames : list str) (cycle : str) :
  find_nowcast_cycles strings pattern = Ok fnames ->
  filter (fun u => str_eqb (cycle_field u) cycle) fnames
  = filter (fun u => str_eqb (cycle_field u) cycle)
           (sorted (fnmatch_filter strings pattern)).
Proof.
  intros H. destruct (find_nowcast_cycles_Ok _ _ _ H) as (keyed & -> & Hnames & Hkeys).
  rewrite <- Hnames, !filter_map_swap. f_equal.
  rewrite (filter_ext_in _ (fun kp : str * list str => str_eqb (fst kp) cycle)
             (sorted_by fst str_leb keyed))
    by (intros kp Hkp; apply In_sorted_by in Hkp; cbv beta;
        now rewrite <- (Hkeys kp Hkp)).
  rewrite (filter_ext_in _ (fun kp : str * list str => str_eqb (fst kp) cycle) keyed)
    by (intros kp Hkp; cbv beta; now rewrite <- (Hkeys kp Hkp)).
  apply sorted_by_filter. intros x y Hxy Hx.
  apply str_eqb_eq in Hx. apply str_eqb_neq. intros Hy.
  rewrite Hx, Hy, str_leb_refl in Hxy. discriminate.
Qed.

(** X1: for a pattern without bracket that holds a dot (the default
    pattern of a day does, for a file type without bracket),
    [find_nowcast_cycles] never raises. It returns the candidates that
    match the pattern, each as often as it occurs, ordered by cycle
    field; within one cycle the names are in ascending order. *)
Theorem find_nowcast_cycles_sorts_by_cycle (strings : list str) (pattern : str) :
  bracket_free pattern = true ->
  In "."%char pattern ->
  exists fnames,
    find_nowcast_cycles strings pattern = Ok fnames
    /\ Permutation fnames (fnmatch_filter strings pattern)
    /\ StronglySorted
         (fun a b => str_leb (cycle_field a) (cycle_field b) = true) fnames
    /\ forall cycle,
        filter (fun u => str_eqb (cycle_field u) cycle) fnames
        = filter (fun u => str_eqb (cycle_field u) cycle)
                 (sorted (fnmatch_filter strings pattern)).
Proof.
  intros _ Hdot.
  destruct (find_nowcast_cycles_total strings pattern Hdot) as [fnames H].
  exists fnames. split; [exact H|]. split; [|split].
  - exact (find_nowcast_cycles_perm _ _ _ H).
  - exact (find_nowcast_cycles_sorted strings pattern _ H).
  - intros cycle. exact (find_nowcast_cycles_stable _ _ _ cycle H).
Qed.

Lemma find_nowcast_cycles_sorts_by_cycle_witness :
  exists fnames,
    find_nowcast_cycles [cbofs "n002" "06"; cbofs "n001" "00"; cbofs "n001" "06"]
                        $"*fields*.n*.20220701.t??z.*" = Ok fnames
    /\ Permutation fnames
         (fnmatch_filter [cbofs "n002" "06"; cbofs "n001" "00"; cbofs "n001" "06"]
                         $"*fields*.n*.20220701.t??z.*")
    /\ StronglySorted
         (fun a b => str_leb (cycle_field a) (cycle_field b) = true) fnames
    /\ forall cycle,
        filter (fun u => str_eqb (cycle_field u) cycle) fnames
        = filter (fun u => str_eqb (cycle_field u) cycle)
            (sorted (fnmatch_filter
                       [cbofs "n002" "06"; cbofs "n001" "00"; cbofs "n001" "06"]
                       $"*fields*.n*.20220701.t??z.*")).
Proof.
  apply find_nowcast_cycles_sorts_by_cycle; [reflexivity | simpl; auto 12].
Defined.


Lemma StronglySorted_filter {A} (R : A -> A -> Prop) (p : A -> bool) (l : list A) :
  StronglySorted R l -> StronglySorted R (filter p l).
Proof.
  induction 1 as [|x l Hl IH Hx]; simpl; [constructor|].
  destruct (p x); [|exact IH]. constructor; [exact IH|].
  rewrite Forall_forall in *. intros y Hy. apply filter_In in Hy. now apply Hx.
Qed.

Lemma StronglySorted_last {A} (R : A -> A -> Prop) (l : list A) (c : A) :
  StronglySorted R (l ++ [c]) -> forall t, In t l -> R t c.
Proof.
  induction l as [|x l IH]; intros Hs t Ht; [destruct Ht|].
  simpl in Hs. apply StronglySorted_inv in Hs. destruct Hs as [Hs Hx].
  destruct Ht as [<- | Ht].
  - rewrite Forall_forall in Hx. apply Hx. apply in_or_app. right. now left.
  - now apply IH.
Qed.

Lemma sorted_strongly (l : list str) :
  StronglySorted (fun a b => str_leb a b = true) (sorted l).
Proof.
  apply Sorted_StronglySorted.
  - intros a b c. apply str_leb_trans.
  - apply (sorted_by_sorted (fun s : str => s) str_leb).
    intros a b. apply str_leb_total.
Qed.

Lemma In_firstn {A} (n : nat) (l : list A) (x : A) :
  In x (firstn n l) -> In x l.
Proof.
  revert l. induction n as [|n IH]; intros [|y l]; simpl; try tauto.
  intros [-> | H]; auto.
Qed.

(** ** remove_duplicates *)

(** X2: for a pattern without bracket, [remove_duplicates] never raises
    (every file it looks up is in the list); it returns the names that
    do not match the pattern, in their order, and removes as many names
    as match. *)
Theorem remove_duplicates_keeps_the_rest (filenames : list str) (pattern : str) :
  bracket_free pattern = true ->
  exists kept,
    remove_duplicates filenames pattern = Ok kept
    /\ kept = filter (fun n => negb (fnmatch n pattern)) filenames
    /\ (length kept + length (fnmatch_filter filenames pattern)
        = length filenames)%nat.
Proof.
  intros _.
  eexists. split; [apply remove_duplicates_filter|]. split; [reflexivity|].
  unfold fnmatch_filter. induction filenames as [|f l IH]; simpl.
  - reflexivity.
  - destruct (fnmatch f pattern); simpl; lia.
Qed.

Lemma remove_duplicates_keeps_the_rest_witness :
  exists kept,
    remove_duplicates [cbofs "f000" "06"; cbofs "f001" "06"; cbofs "f000" "06"]
                      $"*.f000.*" = Ok kept
    /\ kept = filter (fun n => negb (fnmatch n $"*.f000.*"))
                     [cbofs "f000" "06"; cbofs "f001" "06"; cbofs "f000" "06"]
    /\ (length kept
        + length (fnmatch_filter
                    [cbofs "f000" "06"; cbofs "f001" "06"; cbofs "f000" "06"]
                    $"*.f000.*")
        = length [cbofs "f000" "06"; cbofs "f001" "06"; cbofs "f000" "06"])%nat.
Proof.
  exact (remove_duplicates_keeps_the_rest
           [cbofs "f000" "06"; cbofs "f001" "06"; cbofs "f000" "06"]
           $"*.f000.*" eq_refl).
Defined.

(** ** agg_for_date without the forecast files *)

(** X3: without the forecast files and with the default pattern, for a
    plain file type ([plain_day]: no [%], which [strftime] would expand,
    and no bracket), [agg_for_date] never raises. The list it returns
    holds exactly the candidates that match the pattern of the day and
    not [*.n000.*], and it is ordered by cycle field. *)
Theorem agg_for_date_nowcast_only (date : Z) (strings : list str) (filetype : str) :
  plain_day filetype None = true ->
  exists fnames,
    agg_for_date date strings filetype false None = Ok fnames
    /\ (forall url,
          In url fnames
          <-> In url strings
              /\ fnmatch url (day_pattern date filetype None) = true
              /\ fnmatch url $"*.n000.*" = false)
    /\ StronglySorted
         (fun a b => str_leb (cycle_field a) (cycle_field b) = true) fnames.
Proof.
  intros _.
  assert (In "."%char (day_pattern date filetype None)) as Hdot.
  { unfold day_pattern. apply in_or_app. right. apply in_or_app. right.
    apply in_or_app. left. simpl. auto. }
  destruct (find_nowcast_cycles_total strings _ Hdot) as [now Hnow].
  pose proof (find_nowcast_cycles_perm _ _ _ Hnow) as Hperm.
  pose proof (find_nowcast_cycles_sorted _ _ _ Hnow) as Hsorted.
  unfold agg_for_date. rewrite Hnow. cbn [bind].
  rewrite remove_duplicates_filter. eexists. split; [reflexivity|]. split.
  - intros url. rewrite filter_In, negb_true_iff.
    unfold fnmatch_filter in Hperm. split.
    + intros [Hin Hn]. apply (Permutation_in _ Hperm) in Hin.
      apply filter_In in Hin. tauto.
    + intros (Hin & Hpat & Hn). split; [|exact Hn].
      apply (Permutation_in _ (Permutation_sym Hperm)).
      apply filter_In. tauto.
  - now apply StronglySorted_filter.
Qed.

Lemma agg_for_date_nowcast_only_witness :
  exists fnames,
    agg_for_date (timestamp 2022 7 1 0)
      [cbofs "n001" "06"; cbofs "n000" "00"; cbofs "f001" "00"; cbofs "n002" "00"]
      $"fields" false None = Ok fnames
    /\ (forall url,
          In url fnames
          <-> In url [cbofs "n001" "06"; cbofs "n000" "00"; cbofs "f001" "00";
                      cbofs "n002" "00"]
              /\ fnmatch url (day_pattern (timestamp 2022 7 1 0) $"fields" None)
                 = true
              /\ fnmatch url $"*.n000.*" = false)
    /\ StronglySorted
         (fun a b => str_leb (cycle_field a) (cycle_field b) = true) fnames.
Proof.
  exact (agg_for_date_nowcast_only (timestamp 2022 7 1 0)
           [cbofs "n001" "06"; cbofs "n000" "00"; cbofs "f001" "00"; cbofs "n002" "00"]
           $"fields" eq_refl).
Defined.

(** X4: whatever the branch and the pattern, every URL that [agg_for_date]
    returns is one of the candidates it was given. *)
Theorem agg_for_date_returns_candidates (date : Z) (strings : list str)
  (filetype : str) (is_forecast : bool) (pattern : option str)
  (fnames : list str) :
  agg_for_date date strings filetype is_forecast pattern = Ok fnames ->
  forall url, In url fnames -> In url strings.
Proof.
  destruct is_forecast.
  - rewrite agg_for_date_forecast. cbv zeta. intros H url Hurl.
    apply bind_Ok in H. destruct H as (cycle & _ & H).
    apply bind_Ok in H. destruct H as (fore & Hfore & H).
    apply bind_Ok in H. destruct H as (now & Hnow & H).
    destruct (nowcast_of_cycle _ _ _ ++ fore) as [|first rest] eqn:Hcomb;
      [discriminate|].
    apply bind_Ok in H. destruct H as (i & _ & H).
    rewrite remove_duplicates_filter in H. injection H as <-.
    apply filter_In in Hurl. destruct Hurl as [Hurl _].
    apply in_app_or in Hurl. destruct Hurl as [Hurl | Hurl].
    + apply In_firstn in Hurl.
      now apply (find_nowcast_cycles_In _ _ _ Hnow).
    + rewrite <- Hcomb in Hurl. apply in_app_or in Hurl.
      destruct Hurl as [Hurl | Hurl].
      * unfold nowcast_of_cycle in Hurl. apply In_sorted_by in Hurl.
        unfold fnmatch_filter in Hurl. now apply filter_In in Hurl.
      * unfold forecast_of_cycle in Hfore.
        rewrite remove_duplicates_filter in Hfore. injection Hfore as <-.
        apply filter_In in Hurl. destruct Hurl as [Hurl _].
        apply In_sorted_by in Hurl.
        unfold fnmatch_filter in Hurl. now apply filter_In in Hurl.
  - unfold agg_for_date. intros H url Hurl.
    apply bind_Ok in H. destruct H as (now & Hnow & H).
    rewrite remove_duplicates_filter in H. injection H as <-.
    apply filter_In in Hurl. destruct Hurl as [Hurl _].
    now apply (find_nowcast_cycles_In _ _ _ Hnow).
Qed.

Lemma agg_for_date_returns_candidates_witness :
  agg_for_date (timestamp 2022 7 1 0) [cbofs "n000" "00"; cbofs "n001" "00"]
               $"fields" false None
  = Ok [cbofs "n001" "00"]
  /\ In (cbofs "n001" "00") [cbofs "n000" "00"; cbofs "n001" "00"].
Proof.
  split; [vm_compute; reflexivity|].
  apply (agg_for_date_returns_candidates (timestamp 2022 7 1 0)
           [cbofs "n000" "00"; cbofs "n001" "00"] $"fields" false None
           [cbofs "n001" "00"]).
  - vm_compute. reflexivity.
  - left. reflexivity.
Defined.

(** ** The cycle selected by the forecast branch *)

Lemma last_item_total {A} (l : list A) :
  l <> [] -> exists l' c, l = l' ++ [c] /\ last_item l = Ok c.
Proof.
  intros Hne. destruct (exists_last Hne) as (l' & c & ->).
  exists l', c. split; [reflexivity | apply last_item_snoc].
Qed.

(** X5: when the candidates hold no cycle token the selection of the
    cycle raises [IndexError]; otherwise the cycle selected is a label of
    the candidates that no label occurs more often than, and the latest
    of the labels that occur as often. *)
Theorem select_cycle_most_frequent (strings : list str) :
  (cycle_labels strings = [] -> select_cycle strings = Raise IndexError)
  /\ (cycle_labels strings <> [] ->
      exists cycle,
        select_cycle strings = Ok cycle
        /\ In cycle (cycle_labels strings)
        /\ forall t, In t (cycle_labels strings) ->
             count t (cycle_labels strings) < count cycle (cycle_labels strings)
             \/ (count t (cycle_labels strings) = count cycle (cycle_labels strings)
                 /\ str_leb t cycle = true)).
Proof.
  unfold select_cycle. fold (cycle_labels strings).
  set (subs := cycle_labels strings). split.
  - intros ->. reflexivity.
  - intros Hne.
    set (times := sorted (distinct subs)).
    set (byc := sorted_by (fun t => count t subs) Z.leb times).
    assert (forall t, In t byc <-> In t subs) as Hmem.
    { intros t. unfold byc, times, sorted, distinct.
      rewrite !In_sorted_by. apply nodup_In. }
    assert (byc <> []) as Hbyc.
    { destruct subs as [|s subs'] eqn:E; [congruence|].
      intros Hnil. assert (In s byc) as Hs by (apply Hmem; now left).
      rewrite Hnil in Hs. destruct Hs. }
    destruct (last_item_total byc Hbyc) as (front & c & Hsplit & Hlast).
    exists c. split; [exact Hlast|].
    assert (In c subs) as Hc
        by (apply Hmem; rewrite Hsplit; apply in_or_app; right; now left).
    split; [exact Hc|].
    intros t Ht.
    assert (StronglySorted
              (fun a b => Z.leb (count a subs) (count b subs) = true) byc) as Hs.
    { apply Sorted_StronglySorted.
      - intros x y z Hxy Hyz. apply Z.leb_le in Hxy, Hyz. apply Z.leb_le. lia.
      - apply (sorted_by_sorted (fun t => count t subs) Z.leb).
        intros a b. rewrite !Z.leb_le. lia. }
    assert (count t subs <= count c subs) as Hle.
    { apply Hmem in Ht. rewrite Hsplit in Ht, Hs. apply in_app_or in Ht.
      destruct Ht as [Ht | [<- | []]]; [|lia].
      apply Z.leb_le. exact (StronglySorted_last _ _ _ Hs t Ht). }
    destruct (Z.eq_dec (count t subs) (count c subs)) as [Heq | Hneq]; [|left; lia].
    right. split; [exact Heq|].
    set (p := fun x => count x subs =? count c subs).
    assert (filter p byc = filter p times) as Hstable.
    { apply sorted_by_filter. intros x y Hxy Hx. unfold p in *.
      apply Z.leb_gt in Hxy. apply Z.eqb_eq in Hx. apply Z.eqb_neq. lia. }
    rewrite Hsplit, filter_app in Hstable. simpl in Hstable.
    assert (p c = true) as Hpc by (apply Z.eqb_eq; reflexivity).
    rewrite Hpc in Hstable.
    assert (In t (filter p times)) as Htf.
    { apply filter_In. split; [|apply Z.eqb_eq; exact Heq].
      unfold times, sorted, distinct. rewrite In_sorted_by. now apply nodup_In. }
    pose proof (StronglySorted_filter _ p _ (sorted_strongly (distinct subs))) as Hsf.
    fold times in Hsf. rewrite <- Hstable in Hsf, Htf.
    apply in_app_or in Htf. destruct Htf as [Htf | [<- | []]].
    + exact (StronglySorted_last _ _ _ Hsf t Htf).
    + apply str_leb_refl.
Qed.

(** ** agg_for_date with the forecast files: the parts of the list *)

Lemma index_of_split (x : str) (l : list str) : forall i,
  index_of x l = Some i ->
  (exists r, l = firstn i l ++ x :: r) /\ ~ In x (firstn i l).
Proof.
  induction l as [|y l IH]; intros i; simpl; [discriminate|].
  destruct (str_eqb y x) eqn:E.
  - intros H. injection H as <-. apply str_eqb_eq in E. subst y. simpl.
    split; [exists l; reflexivity | auto].
  - destruct (index_of x l) as [j|]; [|discriminate].
    intros H. injection H as <-. destruct (IH j eq_refl) as [[r Hl] Hnot].
    apply str_eqb_neq in E. simpl. split.
    + exists r. now rewrite <- Hl.
    + intros [H | H]; auto.
Qed.

Lemma StronglySorted_before {A} (R : A -> A -> Prop) (l : list A) (x : A)
  (r : list A) :
  StronglySorted R (l ++ x :: r) -> Forall (fun y => R y x) l.
Proof.
  induction l as [|y l IH]; simpl; intros H; [constructor|].
  apply StronglySorted_inv in H. destruct H as [Hs Hy].
  constructor; [|now apply IH].
  rewrite Forall_forall in Hy. apply Hy. apply in_or_app. right. now left.
Qed.

(** X6: what [agg_for_date] returns when the forecast files are asked
    for, for a plain file type or custom pattern ([plain_day]). The list
    is made of three parts, from which the matches of [*.n000.*] are
    dropped: the files that [find_nowcast_cycles] lists before the first
    occurrence of the first selected file, in the order it lists them
    (their cycle field is not after that of the first selected file);
    then the nowcast files of the selected cycle; then its forecast
    files. *)
Theorem agg_for_date_forecast_parts (date : Z) (strings : list str)
  (filetype : str) (pattern : option str) (fnames : list str) :
  plain_day filetype pattern = true ->
  agg_for_date date strings filetype true pattern = Ok fnames ->
  exists cycle fore fnames_now first i,
    select_cycle strings = Ok cycle
    /\ forecast_of_cycle strings (day_pattern date filetype pattern) cycle = Ok fore
    /\ find_nowcast_cycles strings (day_pattern date filetype pattern)
       = Ok fnames_now
    /\ hd_error (nowcast_of_cycle strings (day_pattern date filetype pattern) cycle
                 ++ fore) = Some first
    /\ index_of first fnames_now = Some i
    /\ fnames
       = filter (fun n => negb (fnmatch n $"*.n000.*"))
           (firstn i fnames_now
            ++ nowcast_of_cycle strings (day_pattern date filetype pattern) cycle
            ++ fore)
    /\ Forall (fun url =>
                 str_leb (cycle_field url) (cycle_field first) = true)
              (firstn i fnames_now)
    /\ ~ In first (firstn i fnames_now).
Proof.
  intros _. rewrite agg_for_date_forecast. cbv zeta. intros H.
  apply bind_Ok in H. destruct H as (cycle & Hcycle & H).
  apply bind_Ok in H. destruct H as (fore & Hfore & H).
  apply bind_Ok in H. destruct H as (now & Hnow & H).
  destruct (nowcast_of_cycle _ _ _ ++ fore) as [|first rest] eqn:Hcomb;
    [discriminate|].
  apply bind_Ok in H. destruct H as (i & Hi & H).
  rewrite remove_duplicates_filter in H. injection H as <-.
  destruct (index_of first now) as [j|] eqn:Hidx; [|discriminate].
  injection Hi as ->.
  destruct (index_of_split _ _ _ Hidx) as [[r Hsplit] Hnot].
  exists cycle, fore, now, first, i.
  split; [exact Hcycle|]. split; [exact Hfore|]. split; [exact Hnow|].
  split; [now rewrite Hcomb|]. split; [exact Hidx|].
  split; [now rewrite Hcomb|]. split; [|exact Hnot].
  pose proof (find_nowcast_cycles_sorted _ _ _ Hnow) as Hsorted.
  rewrite Hsplit in Hsorted. now apply StronglySorted_before in Hsorted.
Qed.

Lemma agg_for_date_forecast_parts_witness :
  exists cycle fore fnames_now first i,
    select_cycle [cbofs "n002" "00"; cbofs "n001" "06"; cbofs "f001" "06";
                  cbofs "n001" "00"; cbofs "n002" "06"] = Ok cycle
    /\ forecast_of_cycle [cbofs "n002" "00"; cbofs "n001" "06"; cbofs "f001" "06";
                          cbofs "n001" "00"; cbofs "n002" "06"]
         (day_pattern (timestamp 2022 7 1 0) $"fields" None) cycle = Ok fore
    /\ find_nowcast_cycles [cbofs "n002" "00"; cbofs "n001" "06"; cbofs "f001" "06";
                            cbofs "n001" "00"; cbofs "n002" "06"]
         (day_pattern (timestamp 2022 7 1 0) $"fields" None) = Ok fnames_now
    /\ hd_error (nowcast_of_cycle [cbofs "n002" "00"; cbofs "n001" "06";
                                   cbofs "f001" "06"; cbofs "n001" "00";
                                   cbofs "n002" "06"]
                   (day_pattern (timestamp 2022 7 1 0) $"fields" None) cycle
                 ++ fore) = Some first
    /\ index_of first fnames_now = Some i
    /\ [cbofs "n001" "00"; cbofs "n002" "00"; cbofs "n001" "06"; cbofs "n002" "06";
        cbofs "f001" "06"]
       = filter (fun n => negb (fnmatch n $"*.n000.*"))
           (firstn i fnames_now
            ++ nowcast_of_cycle [cbofs "n002" "00"; cbofs "n001" "06";
                                 cbofs "f001" "06"; cbofs "n001" "00";
                                 cbofs "n002" "06"]
                 (day_pattern (timestamp 2022 7 1 0) $"fields" None) cycle
            ++ fore)
    /\ Forall (fun url =>
                 str_leb (cycle_field url) (cycle_field first) = true)
              (firstn i fnames_now)
    /\ ~ In first (firstn i fnames_now).
Proof.
  apply (agg_for_date_forecast_parts (timestamp 2022 7 1 0)
           [cbofs "n002" "00"; cbofs "n001" "06"; cbofs "f001" "06";
            cbofs "n001" "00"; cbofs "n002" "06"] $"fields" None);
    vm_compute; reflexivity.
Defined.

(** ** file2dt reads the base name only *)

Lemma forallb_rev_eq {A} (p : A -> bool) (l : list A) :
  forallb p (rev l) = forallb p l.
Proof.
  induction l as [|x l IH]; simpl; [reflexivity|].
  rewrite forallb_app, IH. simpl. rewrite andb_true_r. apply andb_comm.
Qed.

Lemma split_aux_no_sep_in (sep : ascii) (s : str) : forall cur,
  forallb (fun c => negb (Ascii.eqb c sep)) cur = true ->
  Forall (fun part => forallb (fun c => negb (Ascii.eqb c sep)) part = true)
         (split_aux sep cur s).
Proof.
  induction s as [|c s IH]; intros cur Hcur; simpl.
  - constructor; [|constructor]. rewrite forallb_rev_eq. exact Hcur.
  - destruct (Ascii.eqb c sep) eqn:E.
    + constructor; [rewrite forallb_rev_eq; exact Hcur | now apply IH].
    + apply IH. simpl. now rewrite E.
Qed.

Lemma no_slash_basename (filename : str) : no_slash (basename filename) = true.
Proof.
  unfold basename, split, no_slash.
  pose proof (split_aux_no_sep_in "/" filename [] eq_refl) as H.
  pose proof (split_aux_not_nil "/" filename []) as Hne.
  destruct (exists_last Hne) as (l & b & E). rewrite E in *.
  rewrite last_last. rewrite Forall_forall in H. apply H.
  apply in_or_app. right. now left.
Qed.

Lemma basename_basename (filename : str) :
  basename (basename filename) = basename filename.
Proof.
  exact (basename_dir [] _ eq_refl (no_slash_basename filename)).
Qed.

Lemma basename_app_dir (dir filename : str) :
  is_dir dir = true -> basename (dir ++ filename) = basename filename.
Proof.
  unfold is_dir. intros H. destruct (rev dir) as [|c r] eqn:E.
  - apply (f_equal (@rev ascii)) in E. rewrite rev_involutive in E. now subst.
  - apply Ascii.eqb_eq in H. subst c.
    apply (f_equal (@rev ascii)) in E. rewrite rev_involutive in E. subst dir.
    simpl. rewrite <- app_assoc. simpl. unfold basename, split.
    apply last_split_aux_app.
Qed.

(** X7: [file2dt] reads the base name only: it decodes a path, a URL and
    the bare file name alike. *)
Theorem file2dt_reads_base_name (filename : str) :
  file2dt (basename filename) = file2dt filename
  /\ forall dir, is_dir dir = true -> file2dt (dir ++ filename) = file2dt filename.
Proof.
  split.
  - unfold file2dt. cbv zeta. now rewrite basename_basename.
  - intros dir Hdir. unfold file2dt. cbv zeta. now rewrite basename_app_dir.
Qed.

(** ** The files that [agg_for_date] drops repeat a time step *)

Lemma file2dt_ofs_name (dir pre post : str) (nowcast : bool) (lead y m d cycle : Z) :
  is_dir dir = true -> no_slash pre = true -> no_slash post = true ->
  adjacent_digits pre = false ->
  1678 <= y <= 2261 -> 1 <= m <= 12 -> 1 <= d <= days_in_month y m ->
  0 <= cycle <= 99 -> 0 <= lead <= 999 ->
  single_step (ofs_name pre nowcast lead y m d cycle post) = true ->
  file2dt (dir ++ ofs_name pre nowcast lead y m d cycle post)
  = Ok (Single
          (timestamp y m d
             (cycle + lead
              - (if fnmatch (ofs_name pre nowcast lead y m d cycle post) $"*.n???.*"
                 then 6 else 0)))).
Proof.
  intros Hdir Hpre Hpost Hadj Hy Hm Hd Hc Hl Hsingle.
  unfold single_step in Hsingle. apply andb_true_iff in Hsingle.
  destruct Hsingle as [Hnow Hfore]. apply negb_true_iff in Hnow, Hfore.
  destruct (ofs_name_parsed pre post nowcast lead y m d cycle Hadj Hy Hm Hd Hc Hl)
    as (Hdate & Hcycle & Hlead & Hkind).
  pose proof (days_in_month_le_31 y m) as H31.
  pose proof (basename_dir dir _ Hdir
                (no_slash_ofs_name pre post nowcast lead y m d cycle Hpre Hpost))
    as Hbase.
  set (name := ofs_name pre nowcast lead y m d cycle post) in *.
  rewrite (file2dt_single_step (dir ++ name) (timestamp y m d 0) cycle lead);
    rewrite ?Hbase; try assumption.
  - unfold timestamp. do 2 f_equal. lia.
  - destruct nowcast; rewrite Hkind; [reflexivity | apply orb_true_r].
  - unfold timestamp. rewrite Z.mul_0_l, Z.add_0_r.
    apply ts_ok_near_date; try lia.
    destruct (fnmatch name $"*.n???.*"); lia.
Qed.

(** X8: the files that [agg_for_date] drops as repeats are repeats for
    [file2dt]. Among the names [pre.kLLL.YYYYMMDD.tCCz.post] of one day,
    the forecast file [f000] of a cycle is decoded to the time of the
    nowcast file [n006] of that cycle, the cycle time itself; the
    nowcast file [n000] of a cycle is decoded to the time of the file
    [n006] of the cycle six hours before. *)
Theorem file2dt_dropped_files_repeat (dir pre post : str) (y m d cycle : Z) :
  is_dir dir = true -> no_slash pre = true -> no_slash post = true ->
  adjacent_digits pre = false ->
  1678 <= y <= 2261 -> 1 <= m <= 12 -> 1 <= d <= days_in_month y m ->
  6 <= cycle <= 99 ->
  single_step (ofs_name pre true 6 y m d cycle post) = true ->
  single_step (ofs_name pre true 0 y m d cycle post) = true ->
  single_step (ofs_name pre true 6 y m d (cycle - 6) post) = true ->
  single_step (ofs_name pre false 0 y m d cycle post) = true ->
  fnmatch (ofs_name pre false 0 y m d cycle post) $"*.n???.*" = false ->
  file2dt (dir ++ ofs_name pre true 6 y m d cycle post)
  = Ok (Single (timestamp y m d cycle))
  /\ file2dt (dir ++ ofs_name pre false 0 y m d cycle post)
     = Ok (Single (timestamp y m d cycle))
  /\ file2dt (dir ++ ofs_name pre true 6 y m d (cycle - 6) post)
     = Ok (Single (timestamp y m d (cycle - 6)))
  /\ file2dt (dir ++ ofs_name pre true 0 y m d cycle post)
     = Ok (Single (timestamp y m d (cycle - 6))).
Proof.
  intros Hdir Hpre Hpost Hadj Hy Hm Hd Hc Hn6 Hn0 Hp6 Hf0 Hplain.
  assert (forall lead c, 0 <= c <= 99 -> 0 <= lead <= 999 ->
            fnmatch (ofs_name pre true lead y m d c post) $"*.n???.*" = true)
    as Hkind.
  { intros lead c Hc' Hl.
    exact (proj2 (proj2 (proj2
             (ofs_name_parsed pre post true lead y m d c Hadj Hy Hm Hd Hc' Hl)))). }
  repeat split.
  - rewrite file2dt_ofs_name by (assumption || lia).
    rewrite Hkind by lia. do 3 f_equal. lia.
  - rewrite file2dt_ofs_name by (assumption || lia).
    rewrite Hplain. do 3 f_equal. lia.
  - rewrite file2dt_ofs_name by (assumption || lia).
    rewrite Hkind by lia. do 3 f_equal. lia.
  - rewrite file2dt_ofs_name by (assumption || lia).
    rewrite Hkind by lia. do 3 f_equal. lia.
Qed.

Lemma file2dt_dropped_files_repeat_witness :
  file2dt (cbofs "n006" "12") = Ok (Single (timestamp 2022 7 1 12))
  /\ file2dt (cbofs "f000" "12") = Ok (Single (timestamp 2022 7 1 12))
  /\ file2dt (cbofs "n006" "06") = Ok (Single (timestamp 2022 7 1 6))
  /\ file2dt (cbofs "n000" "12") = Ok (Single (timestamp 2022 7 1 6)).
Proof.
  apply (file2dt_dropped_files_repeat
           $"https://opendap.co-ops.nos.noaa.gov/thredds/dodsC/NOAA/CBOFS/MODELS/2022/07/01/"
           $"nos.cbofs.fields" $"nc" 2022 7 1 12);
    try reflexivity; try lia.
  vm_compute. split; discriminate.
Defined.

(** ** get_dates_from_ofs and file2dt *)

Lemma re_filetime_not_in_prefix (norf : ascii) (p2 rest : str) :
  norf = "n"%char \/ norf = "f"%char ->
  p2 <> [] -> adjacent_digits p2 = false ->
  re_filetime norf (p2 ++ "."%char :: rest) = None.
Proof.
  intros Hk Hne Hadj. unfold re_filetime.
  destruct Hk as [-> | ->];
    (destruct p2 as [|a [|b [|c [|d p2]]]]; [congruence | no_match ..|]).
  all: apply adjacent_digits_tail, adjacent_digits_tail, adjacent_digits_head in Hadj.
  all: destruct Hadj; no_match.
Qed.

Lemma search_filetime_tokens (k l1 l2 l3 : ascii) (pre rest : str) :
  k = "n"%char \/ k = "f"%char ->
  adjacent_digits pre = false ->
  is_digit l1 = true -> is_digit l2 = true -> is_digit l3 = true ->
  search (re_filetime k) (pre ++ ["."; k; l1; l2; l3; "."]%char ++ rest)
  = Some ["."; k; l1; l2; l3; "."]%char.
Proof.
  intros Hk Hpre H1 H2 H3. cbn [app]. rewrite search_skip_prefix.
  - apply search_here. unfold re_filetime. cbn [re_classes option_map].
    change (re_dot ".") with true. cbv iota.
    rewrite Ascii.eqb_refl, H1, H2, H3. reflexivity.
  - intros p1 p2 -> Hne. apply re_filetime_not_in_prefix; [assumption ..|].
    now apply adjacent_digits_suffix in Hpre.
Qed.

Lemma digit_char_not_dot (n : Z) :
  negb (Ascii.eqb (digit_char (n mod 10)) ".") = true.
Proof.
  rewrite Ascii.eqb_sym, (is_digit_not "." _ (is_digit_char_mod n)); reflexivity.
Qed.

(** The fifth field of a name [a.b.c.kLLL.YYYYMMDD.tCCz.post]. *)
Lemma date_field_ofs_name (a b c post : str) (nowcast : bool)
  (lead y m d cycle : Z) :
  forallb (fun ch => negb (Ascii.eqb ch ".")) a = true ->
  forallb (fun ch => negb (Ascii.eqb ch ".")) b = true ->
  forallb (fun ch => negb (Ascii.eqb ch ".")) c = true ->
  nth_error (split "." (ofs_name (a ++ $"." ++ b ++ $"." ++ c) nowcast lead
                                 y m d cycle post)) 4
  = Some (pad4 y ++ pad2 m ++ pad2 d).
Proof.
  intros Ha Hb Hc. unfold ofs_name, split. rewrite <- !app_assoc.
  cbn [app list_ascii_of_string].
  rewrite (split_aux_field "." a _ [] Ha), (split_aux_field "." b _ [] Hb),
    (split_aux_field "." c _ [] Hc).
  change ((if nowcast then "n"%char else "f"%char)
          :: pad3 lead ++ "."%char :: pad4 y ++ pad2 m ++ pad2 d
             ++ "."%char :: "t"%char :: pad2 cycle ++ "z"%char :: "."%char :: post)
    with (((if nowcast then "n"%char else "f"%char) :: pad3 lead)
          ++ "."%char :: (pad4 y ++ pad2 m ++ pad2 d)
             ++ "."%char :: "t"%char :: pad2 cycle ++ "z"%char :: "."%char :: post).
  rewrite (split_aux_field "." (_ :: pad3 lead) _ []),
    (split_aux_field "." (pad4 y ++ pad2 m ++ pad2 d) _ []).
  - reflexivity.
  - unfold pad4, pad3, pad2. cbn [app forallb].
    now rewrite !digit_char_not_dot.
  - unfold pad3, pad2. cbn [forallb]. rewrite !digit_char_not_dot.
    now destruct nowcast.
Qed.

(** X9: [get_dates_from_ofs] and [file2dt] do not read a nowcast file
    alike. On a file [a.b.c.kLLL.YYYYMMDD.tCCz.post], the first or last
    of the sorted matches, [get_dates_from_ofs] returns the date plus
    the cycle hours plus the file time; it does not take off the six
    hours that [file2dt] takes off for a nowcast file, so that for such
    a file its time is six hours after that of [file2dt]. *)
Theorem get_dates_from_ofs_no_nowcast_shift (Timestamp : str -> result Z)
  (filelocs : list str) (filetype firstorlast dir a b c post : str)
  (nowcast : bool) (lead y m d cycle : Z) :
  is_dir dir = true ->
  no_slash (a ++ $"." ++ b ++ $"." ++ c) = true -> no_slash post = true ->
  forallb (fun ch => negb (Ascii.eqb ch ".")) a = true ->
  forallb (fun ch => negb (Ascii.eqb ch ".")) b = true ->
  forallb (fun ch => negb (Ascii.eqb ch ".")) c = true ->
  adjacent_digits (a ++ $"." ++ b ++ $"." ++ c) = false ->
  1678 <= y <= 2261 -> 1 <= m <= 12 -> 1 <= d <= days_in_month y m ->
  0 <= cycle <= 99 -> 0 <= lead <= 999 ->
  single_step (ofs_name (a ++ $"." ++ b ++ $"." ++ c) nowcast lead y m d cycle post)
  = true ->
  Timestamp (pad4 y ++ pad2 m ++ pad2 d) = Ok (timestamp y m d 0) ->
  (firstorlast = $"first"
   /\ hd_error (sorted (fnmatch_filter filelocs
                          ($"*" ++ filetype ++ $"*."
                           ++ [if nowcast then "n" else "f"]%char
                           ++ $"*.????????.t??z.*")))
      = Some (dir ++ ofs_name (a ++ $"." ++ b ++ $"." ++ c) nowcast lead
                              y m d cycle post))
  \/ (firstorlast = $"last"
      /\ last_item (sorted (fnmatch_filter filelocs
                              ($"*" ++ filetype ++ $"*."
                               ++ [if nowcast then "n" else "f"]%char
                               ++ $"*.????????.t??z.*")))
         = Ok (dir ++ ofs_name (a ++ $"." ++ b ++ $"." ++ c) nowcast lead
                               y m d cycle post)) ->
  get_dates_from_ofs Timestamp filelocs filetype
                     (if nowcast then "n" else "f")%char firstorlast
  = Ok (timestamp y m d (cycle + lead))
  /\ (nowcast = true ->
      file2dt (dir ++ ofs_name (a ++ $"." ++ b ++ $"." ++ c) nowcast lead
                               y m d cycle post)
      = Ok (Single (timestamp y m d (cycle + lead - 6)))).
Proof.
  intros Hdir Hpre Hpost Ha Hb Hc Hadj Hy Hm Hd Hcy Hl Hsingle Hts Hfile.
  set (pre := a ++ $"." ++ b ++ $"." ++ c) in *.
  pose proof (days_in_month_le_31 y m) as H31.
  destruct (ofs_name_parsed pre post nowcast lead y m d cycle Hadj Hy Hm Hd Hcy Hl)
    as (_ & Hcycle & _ & Hkind).
  pose proof (basename_dir dir _ Hdir
                (no_slash_ofs_name pre post nowcast lead y m d cycle Hpre Hpost))
    as Hbase.
  split.
  - unfold get_dates_from_ofs. cbv zeta.
    assert ((if str_eqb firstorlast $"first"
             then of_option IndexError
                    (hd_error (sorted (fnmatch_filter filelocs
                                 ($"*" ++ filetype ++ $"*."
                                  ++ [if nowcast then "n" else "f"]%char
                                  ++ $"*.????????.t??z.*"))))
             else if str_eqb firstorlast $"last"
                  then last_item (sorted (fnmatch_filter filelocs
                                    ($"*" ++ filetype ++ $"*."
                                     ++ [if nowcast then "n" else "f"]%char
                                     ++ $"*.????????.t??z.*")))
                  else Raise UnboundLocalError)
            = Ok (dir ++ ofs_name pre nowcast lead y m d cycle post)) as ->.
    { destruct Hfile as [[-> ->] | [-> ->]]; reflexivity. }
    cbn [bind]. rewrite Hbase. unfold pre at 1.
    rewrite date_field_ofs_name by assumption. cbn [of_option bind].
    rewrite Hts. cbn [bind]. fold pre. rewrite Hcycle. cbn [bind].
    rewrite hd_findall by reflexivity.
    assert (search (re_filetime (if nowcast then "n" else "f")%char)
                   (ofs_name pre nowcast lead y m d cycle post)
            = Some ("."%char :: (if nowcast then "n" else "f")%char
                    :: pad3 lead ++ ["."%char])) as ->.
    { unfold ofs_name.
      apply (search_filetime_tokens _ _ _ _ pre _); try apply is_digit_char_mod;
        [destruct nowcast; auto | exact Hadj]. }
    assert (int_of_digits
              (slice 2 5 ("."%char :: (if nowcast then "n" else "f")%char
                          :: pad3 lead ++ ["."%char])) = lead) as ->
        by exact (int_of_pad3 lead Hl).
    unfold ts_add_hours, timestamp. cbv zeta.
    rewrite Z.mul_0_l, Z.add_0_r.
    rewrite (ts_ok_near_date y m d cycle) by lia. cbn [bind].
    replace (days_from_civil y m d * DAY + cycle * HOUR + lead * HOUR)
      with (days_from_civil y m d * DAY + (cycle + lead) * HOUR) by lia.
    rewrite (ts_ok_near_date y m d (cycle + lead)) by lia. reflexivity.
  - intros ->. rewrite file2dt_ofs_name by assumption.
    rewrite Hkind. reflexivity.
Qed.

Lemma get_dates_from_ofs_no_nowcast_shift_witness :
  get_dates_from_ofs Timestamp_Ymd
    [$"nos.cbofs.fields.n002.20220701.t00z.nc";
     $"nos.cbofs.fields.n001.20220701.t00z.nc"] $"fields" "n" $"first"
  = Ok (timestamp 2022 7 1 1)
  /\ file2dt $"nos.cbofs.fields.n001.20220701.t00z.nc"
     = Ok (Single (timestamp 2022 6 30 19)).
Proof.
  destruct (get_dates_from_ofs_no_nowcast_shift Timestamp_Ymd
              [$"nos.cbofs.fields.n002.20220701.t00z.nc";
               $"nos.cbofs.fields.n001.20220701.t00z.nc"]
              $"fields" $"first" [] $"nos" $"cbofs" $"fields" $"nc"
              true 1 2022 7 1 0) as [Hdates Hfile];
    try reflexivity; try lia.
  - vm_compute. split; discriminate.
  - left. split; [reflexivity | vm_compute; reflexivity].
  - split; [exact Hdates | exact (Hfile eq_refl)].
Defined.

(** ** find_catrefs and find_filelocs together *)

Lemma lookup_total {V} (k : str) (d : list (str * V)) :
  In k (map fst d) -> exists v, lookup k d = Ok v.
Proof.
  induction d as [|[k' v] d IH]; simpl; [tauto|].
  intros [-> | H].
  - rewrite str_eqb_refl. eauto.
  - destruct (str_eqb k' k); eauto.
Qed.

Lemma lookup_In {V} (k : str) (d : list (str * V)) (v : V) :
  lookup k d = Ok v -> In (k, v) d.
Proof.
  induction d as [|[k' v'] d IH]; simpl; [discriminate|].
  destruct (str_eqb k' k) eqn:E.
  - apply str_eqb_eq in E. intros H. injection H as <-. left. now subst.
  - auto.
Qed.

Lemma Forall2_combine {A B} (R : A -> B -> Prop) (l : list A) (l' : list B)
  (a : A) (b : B) :
  Forall2 R l l' -> In (a, b) (combine l l') -> R a b.
Proof.
  induction 1 as [|x y l l' Hxy _ IH]; simpl; [tauto|].
  intros [H | H]; [now injection H as <- <- | auto].
Qed.

Lemma refs_below_follow (cat : catalog) (a b c : str) (below : list str) :
  refs_below cat a b = Ok below -> In c below ->
  exists cat1 cat2 cat3,
    follow cat a = Ok cat1 /\ follow cat1 b = Ok cat2 /\ follow cat2 c = Ok cat3.
Proof.
  unfold refs_below. intros H Hc.
  apply bind_Ok in H. destruct H as (cat1 & H1 & H).
  apply bind_Ok in H. destruct H as (cat2 & H2 & H). injection H as <-.
  destruct (lookup_total c (catalog_refs cat2) Hc) as [cat3 H3].
  exists cat1, cat2, cat3. auto.
Qed.

Lemma lookup_Raise {V} (k : str) (d : list (str * V)) (e : exn) :
  lookup k d = Raise e -> e = KeyError /\ ~ In k (map fst d).
Proof.
  induction d as [|[k' v] d IH]; simpl.
  - intros H. injection H as <-. tauto.
  - destruct (str_eqb k' k) eqn:E; [discriminate|].
    intros H. destruct (IH H) as [-> Hnot]. split; [reflexivity|].
    apply str_eqb_neq in E. tauto.
Qed.

Lemma mapM_Raise {A B} (k : A -> result B) (l : list A) (e : exn) :
  mapM k l = Raise e -> exists a, In a l /\ k a = Raise e.
Proof.
  induction l as [|x l IH]; simpl; [discriminate|].
  destruct (k x) as [y|e'] eqn:Hx; cbn [bind].
  - destruct (mapM k l) as [ys|e'']; cbn [bind]; [discriminate|].
    intros H. injection H as ->. destruct (IH eq_refl) as (a & Ha & Hk). eauto.
  - intros H. injection H as ->. eauto.
Qed.

(** What [find_filelocs] does once the labels are followed: it returns
    a list, or raises [KeyError] for a dataset of the file type that has
    no OPENDAP service. *)
Lemma find_filelocs_last_catalog (catref : catref) (cat last_cat : catalog)
  (filetype : str) :
  last_catalog catref cat = Ok last_cat ->
  (exists filelocs, find_filelocs catref cat filetype = Ok filelocs)
  \/ (find_filelocs catref cat filetype = Raise KeyError
      /\ exists dataset urls,
          In (dataset, urls) (datasets last_cat)
          /\ contains filetype dataset = true
          /\ ~ In $"OPENDAP" (map fst urls)).
Proof.
  intros Hlast. unfold find_filelocs. fold (last_catalog catref cat).
  rewrite Hlast. cbn [bind].
  match goal with
  | |- context [mapM ?k ?l] => destruct (mapM k l) as [filelocs|e] eqn:Hm
  end; [left; eauto|].
  right. apply mapM_Raise in Hm. destruct Hm as (dataset & Hin & Hk).
  apply filter_In in Hin. destruct Hin as [Hin Hsel].
  apply andb_true_iff in Hsel. destruct Hsel as [_ Htype].
  destruct (lookup_total dataset (datasets last_cat) Hin) as [urls Hurls].
  rewrite Hurls in Hk. cbn [bind] in Hk.
  apply lookup_Raise in Hk. destruct Hk as [-> Hnot].
  split; [reflexivity|]. exists dataset, urls.
  split; [now apply lookup_In | auto].
Qed.

(** X10: the tuples of [find_catrefs] are paths of the catalog. Each one
    starts with a numeric label of the top catalog, and following its
    labels as [find_filelocs] does leads to a catalog: no reference is
    missing. For any file type [find_filelocs] then returns a list, or
    raises [KeyError] because a dataset of that catalog whose name holds
    the file type has no OPENDAP service. *)
Theorem find_catrefs_lead_to_catalogs (cat : catalog) (catrefs : list catref) :
  find_catrefs cat = Ok catrefs ->
  forall catref, In catref catrefs ->
    (exists year rest,
        catref = year :: rest /\ isnumeric year = true /\ In year (ref_names cat))
    /\ exists last_cat,
        last_catalog catref cat = Ok last_cat
        /\ forall filetype,
            (exists filelocs, find_filelocs catref cat filetype = Ok filelocs)
            \/ (find_filelocs catref cat filetype = Raise KeyError
                /\ exists dataset urls,
                    In (dataset, urls) (datasets last_cat)
                    /\ contains filetype dataset = true
                    /\ ~ In $"OPENDAP" (map fst urls)).
Proof.
  unfold find_catrefs. intros H.
  apply bind_Ok in H. destruct H as (l1 & Hl1 & H).
  apply mapM_Forall2 in Hl1.
  set (pairs := flat_map _ (combine (filter isnumeric (ref_names cat)) l1)) in H.
  assert (forall p, In p pairs ->
            (isnumeric (fst p) = true /\ In (fst p) (ref_names cat))
            /\ exists cat1 cat2,
                follow cat (fst p) = Ok cat1 /\ follow cat1 (snd p) = Ok cat2)
    as Hpairs.
  { intros p Hp. apply in_flat_map in Hp. destruct Hp as ([a below] & Hab & Hp).
    apply in_map_iff in Hp. destruct Hp as (b & <- & Hb). simpl.
    split.
    - apply in_combine_l in Hab. apply filter_In in Hab. tauto.
    - pose proof (Forall2_combine _ _ _ _ _ Hl1 Hab) as Hk. simpl in Hk.
      apply bind_Ok in Hk. destruct Hk as (cat1 & H1 & Hk). injection Hk as <-.
      destruct (lookup_total b (catalog_refs cat1) Hb) as [cat2 H2].
      exists cat1, cat2. auto. }
  apply bind_Ok in H. destruct H as (first & _ & H).
  apply bind_Ok in H. destruct H as (probe & _ & H).
  assert (forall catref,
            (exists last_cat, last_catalog catref cat = Ok last_cat) ->
            exists last_cat,
              last_catalog catref cat = Ok last_cat
              /\ forall filetype,
                  (exists filelocs, find_filelocs catref cat filetype = Ok filelocs)
                  \/ (find_filelocs catref cat filetype = Raise KeyError
                      /\ exists dataset urls,
                          In (dataset, urls) (datasets last_cat)
                          /\ contains filetype dataset = true
                          /\ ~ In $"OPENDAP" (map fst urls))) as Hfiles.
  { intros catref [last_cat Hlast]. exists last_cat. split; [exact Hlast|].
    intros filetype. now apply find_filelocs_last_catalog. }
  destruct (1 <? length probe)%nat.
  - apply bind_Ok in H. destruct H as (l2 & Hl2 & H). injection H as <-.
    apply mapM_Forall2 in Hl2.
    intros catref Hin. apply in_flat_map in Hin.
    destruct Hin as ([p below] & Hp & Hin).
    apply in_map_iff in Hin. destruct Hin as (c & <- & Hc).
    pose proof (Forall2_combine _ _ _ _ _ Hl2 Hp) as Hbelow. simpl in Hbelow.
    apply in_combine_l in Hp. destruct (Hpairs p Hp) as [Hnum _].
    split; [exists (fst p), [snd p; c]; tauto|].
    apply Hfiles.
    destruct (refs_below_follow _ _ _ c _ Hbelow Hc) as (c1 & c2 & c3 & H1 & H2 & H3).
    exists c3. simpl. rewrite H1. cbn [bind]. rewrite H2. cbn [bind]. exact H3.
  - injection H as <-. intros catref Hin.
    apply in_map_iff in Hin. destruct Hin as (p & <- & Hp).
    destruct (Hpairs p Hp) as (Hnum & c1 & c2 & H1 & H2).
    split; [exists (fst p), [snd p]; tauto|].
    apply Hfiles. exists c2. simpl. rewrite H1. cbn [bind]. exact H2.
Qed.

Lemma find_catrefs_lead_to_catalogs_witness :
  exists last_cat,
    last_catalog [$"2022"; $"07"; $"02"] two_day_tree = Ok last_cat
    /\ forall filetype,
        (exists filelocs,
            find_filelocs [$"2022"; $"07"; $"02"] two_day_tree filetype = Ok filelocs)
        \/ (find_filelocs [$"2022"; $"07"; $"02"] two_day_tree filetype
            = Raise KeyError
            /\ exists dataset urls,
                In (dataset, urls) (datasets last_cat)
                /\ contains filetype dataset = true
                /\ ~ In $"OPENDAP" (map fst urls)).
Proof.
  exact (proj2 (find_catrefs_lead_to_catalogs two_day_tree
                  [[$"2022"; $"07"; $"01"]; [$"2022"; $"07"; $"02"]] eq_refl
                  [$"2022"; $"07"; $"02"] (or_intror (or_introl eq_refl)))).
Defined.

(** X11: a catalog whose numeric references have no reference below them
    (or that has no numeric reference at all) makes [find_catrefs] raise
    [IndexError]: the probe of the first (year, month) path reads the
    first entry of an empty list. *)
Theorem find_catrefs_without_months (cat : catalog) :
  (forall year below,
      In (year, below) (catalog_refs cat) -> isnumeric year = true ->
      catalog_refs below = []) ->
  find_catrefs cat = Raise IndexError.
Proof.
  intros Hempty. unfold find_catrefs.
  assert (forall names,
            (forall n, In n names -> isnumeric n = true /\ In n (ref_names cat)) ->
            mapM (fun catref => c <- follow cat catref ;; Ok (ref_names c)) names
            = Ok (map (fun _ => []) names)) as Hmap.
  { induction names as [|n names IH]; intros Hn; [reflexivity|].
    destruct (Hn n (or_introl eq_refl)) as [Hnum Hin].
    destruct (lookup_total n (catalog_refs cat) Hin) as [below Hbelow].
    cbn [mapM]. unfold follow at 1. rewrite Hbelow. cbn [bind].
    change (ref_names below) with (map fst (catalog_refs below)).
    rewrite (Hempty n below (lookup_In _ _ _ Hbelow) Hnum).
    rewrite IH by (intros n' Hn'; apply Hn; now right). reflexivity. }
  rewrite Hmap by (intros n Hn; apply filter_In in Hn; tauto).
  cbn [bind].
  assert (forall names : list str,
            flat_map (fun '(catref0, catrefs1) =>
                        map (fun catref1 : str => (catref0, catref1)) catrefs1)
                     (combine names (map (fun _ => @nil str) names)) = []) as ->.
  { induction names as [|n names IH]; [reflexivity | exact IH]. }
  reflexivity.
Qed.

Lemma find_catrefs_without_months_witness :
  find_catrefs (Catalog [($"images", Catalog [($"png", Catalog [] [])] []);
                         ($"2022", Catalog [] [])] [])
  = Raise IndexError.
Proof.
  apply find_catrefs_without_months.
  intros year below [H | [H | []]] Hnum; injection H as <- <-;
    [discriminate Hnum | reflexivity].
Defined.

(** ** find_datetimes: the start, in every case *)

Lemma last_gap_or_contiguous (index : list Z) : forall prev,
  contiguous_from prev index
  \/ exists before a b after,
      prev :: index = before ++ a :: b :: after
      /\ DAY < b - a /\ contiguous_from b after.
Proof.
  induction index as [|t rest IH]; intros prev.
  - left. exact I.
  - destruct (IH t) as [Hc | (before & a & b & after & E & Hgap & Hc)].
    + destruct (Z.lt_ge_cases DAY (t - prev)) as [Hgap | Hnear].
      * right. exists [], prev, t, rest. auto.
      * left. split; [lia | exact Hc].
    + right. exists (prev :: before), a, b, after. rewrite E. auto.
Qed.

(** X12: on an index that is not empty, the computation of the start
    never raises. The start is a time of the index; no two consecutive
    times from it on are more than one day apart; and it is the first
    time of the index or comes more than one day after the time before
    it. On an empty index it raises [IndexError]. *)
Theorem start_of_index_after_every_gap (index : list Z) :
  (index = [] -> start_of_index index = Raise IndexError)
  /\ (index <> [] ->
      exists before start after,
        index = before ++ start :: after
        /\ start_of_index index = Ok start
        /\ contiguous_from start after
        /\ (before = []
            \/ exists earlier a, before = earlier ++ [a] /\ DAY < start - a)).
Proof.
  split; [intros ->; reflexivity|].
  destruct index as [|t rest]; [congruence|]. intros _.
  destruct (last_gap_or_contiguous rest t)
    as [Hc | (before & a & b & after & E & Hgap & Hc)].
  - exists [], t, rest. repeat split; auto. now apply start_of_index_no_gap.
  - exists (before ++ [a]), b, after. rewrite E, <- app_assoc. simpl.
    repeat split; auto.
    + now apply start_of_index_after_last_gap.
    + right. exists before, a. auto.
Qed.

(** X13: when no catalog reference holds a file of the type, the search
    for the start reads past the last reference and raises
    [IndexError], whatever [filedates2df] does. *)
Theorem find_start_datetime_without_files
  (filedates2df : list str -> result (list Z)) (cat : catalog) (filetype : str)
  (catrefs : list catref) :
  Forall (fun c => find_filelocs c cat filetype = Ok []) catrefs ->
  find_start_datetime filedates2df cat filetype catrefs = Raise IndexError.
Proof.
  intros H. unfold find_start_datetime.
  assert (first_filelocs cat filetype catrefs = Raise IndexError) as ->;
    [|reflexivity].
  induction H as [|c rest Hc _ IH]; simpl; [reflexivity|].
  rewrite Hc. simpl. exact IH.
Qed.

Lemma find_start_datetime_without_files_witness :
  find_start_datetime filedates2df two_month_tree $"regulargrid"
    [[$"2022"; $"06"]; [$"2022"; $"07"]]
  = Raise IndexError.
Proof.
  apply find_start_datetime_without_files.
  repeat constructor.
Defined.

(** ** select_date_range: the ranges that reach today, and [hindcast] *)

(** What a call of [select_date_range] that returns went through. *)
Lemma select_date_range_Ok (choose_timing : option str -> result str)
  (today start_date : Z) (end_date : option Z) (timing : option str)
  (use_ff : option bool) (start_has_time end_has_time : bool)
  (chosen : str) (w : window) (days : list (Z * bool)) :
  select_date_range choose_timing today start_date end_date timing
                    use_ff start_has_time end_has_time
  = Ok (chosen, w, days) ->
  (forall e, end_date = Some e -> date_of start_date <= date_of e)
  /\ (exists end_sel,
         set_end_date_loop today end_date use_ff end_sel
         = (end_date_loop w, use_forecast_files w, end_date_sel w))
  /\ truthy (use_forecast_files w) && str_eqb chosen $"hindcast" = false
  /\ days = loop_days start_date w.
Proof.
  intros H. unfold select_date_range in H.
  destruct (match end_date with
            | Some _ => false
            | None => match timing with
                      | Some t => str_eqb t $"hindcast"
                      | None => false
                      end
            end); [discriminate|].
  destruct (match end_date with
            | Some e => date_of e <? date_of start_date
            | None => false
            end) eqn:Estart; [discriminate|].
  destruct (date_sels start_date end_date start_has_time end_has_time)
    as [start_sel end_sel].
  destruct (set_end_date_loop today end_date use_ff end_sel)
    as [[loop ff] end_sel'] eqn:Eloop.
  destruct (choose_timing timing) as [tm|e]; cbn [bind] in H; [|discriminate].
  destruct (truthy ff && str_eqb tm $"hindcast") eqn:Eh; [discriminate|].
  injection H as <- <- <-. cbn [end_date_loop use_forecast_files end_date_sel].
  split; [|split; [exists end_sel; exact Eloop | split; [exact Eh | reflexivity]]].
  intros e ->. now apply Z.ltb_ge in Estart.
Qed.

(** X14: when [end_date] is left open, or is today or a later day, the
    value the caller gave for [use_forecast_files] plays no part:
    forecast files are used, the loop visits the days from the start day
    to today, today alone carries the forecast flag, and the timing is
    not [hindcast] (for which the call raises). *)
Theorem select_date_range_reaches_today (choose_timing : option str -> result str)
  (today start_date : Z) (end_date : option Z) (timing : option str)
  (use_ff : option bool) (start_has_time end_has_time : bool)
  (chosen : str) (w : window) (days : list (Z * bool)) :
  (forall e, end_date = Some e -> date_of today <= date_of e) ->
  select_date_range choose_timing today start_date end_date timing
                    use_ff start_has_time end_has_time
  = Ok (chosen, w, days) ->
  use_forecast_files w = Some true
  /\ date_of (end_date_loop w) = date_of today
  /\ days = map (fun d => (d * DAY, d =? date_of today))
                (days_between (date_of start_date) (date_of today))
  /\ str_eqb chosen $"hindcast" = false.
Proof.
  intros He H.
  destruct (select_date_range_Ok _ _ _ _ _ _ _ _ _ _ _ H)
    as (_ & (end_sel & Eloop) & Eh & ->).
  assert (use_forecast_files w = Some true
          /\ date_of (end_date_loop w) = date_of today) as [Hff Hloop].
  { unfold set_end_date_loop in Eloop. destruct end_date as [e|].
    - specialize (He e eq_refl).
      destruct (date_of today <? date_of e) eqn:E1.
      + injection Eloop as <- <- _. auto.
      + apply Z.ltb_ge in E1.
        assert ((date_of e <? date_of today) = false) as E2
            by (apply Z.ltb_ge; lia).
        rewrite E2 in Eloop. injection Eloop as <- <- _. split; [reflexivity | lia].
    - injection Eloop as <- <- _. auto. }
  rewrite Hff in Eh. cbn [truthy andb] in Eh.
  repeat split; try assumption.
  rewrite loop_days_days, Hff, Hloop.
  apply map_ext. intros d. now rewrite andb_true_r.
Qed.

Lemma select_date_range_reaches_today_witness :
  exists w,
    select_date_range named_timing (timestamp 2022 7 3 9) (timestamp 2022 7 1 0)
      None (Some $"forecast") (Some false) false false
    = Ok ($"forecast", w,
          [(timestamp 2022 7 1 0, false); (timestamp 2022 7 2 0, false);
           (timestamp 2022 7 3 0, true)])
    /\ use_forecast_files w = Some true.
Proof.
  eexists. split; [vm_compute; reflexivity|].
  refine (proj1 (select_date_range_reaches_today named_timing
                   (timestamp 2022 7 3 9) (timestamp 2022 7 1 0) None
                   (Some $"forecast") (Some false) false false _ _ _ _ _)).
  - intros e He. discriminate He.
  - vm_compute. reflexivity.
Defined.

(** X15: a range of the timing [hindcast] never takes forecast files.
    When [select_date_range] returns with that timing, [end_date] was
    given and is a day before today, the caller did not ask for forecast
    files, and no day of the loop carries the forecast flag. *)
Theorem select_date_range_hindcast_is_past (choose_timing : option str -> result str)
  (today start_date : Z) (end_date : option Z) (timing : option str)
  (use_ff : option bool) (start_has_time end_has_time : bool)
  (w : window) (days : list (Z * bool)) :
  select_date_range choose_timing today start_date end_date timing
                    use_ff start_has_time end_has_time
  = Ok ($"hindcast", w, days) ->
  (exists e, end_date = Some e
             /\ date_of start_date <= date_of e < date_of today)
  /\ truthy use_ff = false
  /\ Forall (fun day => snd day = false) days.
Proof.
  intros H.
  destruct (select_date_range_Ok _ _ _ _ _ _ _ _ _ _ _ H)
    as (Hstart & (end_sel & Eloop) & Eh & ->).
  change (str_eqb $"hindcast" $"hindcast") with true in Eh.
  rewrite andb_true_r in Eh.
  assert (Forall (fun day => snd day = false) (loop_days start_date w)) as Hdays.
  { rewrite loop_days_days, Eh. apply Forall_forall. intros day Hday.
    apply in_map_iff in Hday. destruct Hday as (d & <- & _). apply andb_false_r. }
  unfold set_end_date_loop in Eloop.
  destruct end_date as [e|];
    [|injection Eloop as _ E _; rewrite <- E in Eh; discriminate Eh].
  specialize (Hstart e eq_refl).
  destruct (date_of today <? date_of e);
    [injection Eloop as _ E _; rewrite <- E in Eh; discriminate Eh|].
  destruct (date_of e <? date_of today) eqn:E2;
    [|injection Eloop as _ E _; rewrite <- E in Eh; discriminate Eh].
  apply Z.ltb_lt in E2.
  split; [exists e; split; [reflexivity | lia]|]. split; [|exact Hdays].
  destruct (truthy use_ff) eqn:Hff; [|reflexivity].
  injection Eloop as _ E _. rewrite <- E, Hff in Eh. discriminate Eh.
Qed.

Lemma select_date_range_hindcast_is_past_witness :
  Forall (fun day : Z * bool => snd day = false)
         [(timestamp 2022 7 1 0, false); (timestamp 2022 7 2 0, false)].
Proof.
  refine (proj2 (proj2 (select_date_range_hindcast_is_past named_timing
                          (timestamp 2022 7 10 9) (timestamp 2022 7 1 0)
                          (Some (timestamp 2022 7 1 0)) (Some $"hindcast") None
                          false false _ _ _))).
  vm_compute. reflexivity.
Defined.

(** ** The cache: freshness over time, and the keys *)

(** X16: a cache file changes its freshness only by being written or by
    the passing of time. Once [is_fresh] answers [False] it answers
    [False] at every later time, and a write to another file leaves the
    answer as it is. *)
Theorem is_fresh_until_stale (mc : config) (now : Z) (fs : files) (key : path) :
  (forall later,
      now <= later ->
      is_fresh mc now fs key = Ok false -> is_fresh mc later fs key = Ok false)
  /\ (forall other t,
         path_eqb key other = false ->
         is_fresh mc now (write fs other t) key = is_fresh mc now fs key).
Proof.
  split.
  - intros later Hlater. unfold is_fresh. destruct (fs key) as [filetime|]; [|auto].
    destruct (get_fresh_parameter mc key) as [mu|e]; cbn [bind]; [|auto].
    intros H. injection H as H. apply Z.ltb_ge in H.
    f_equal. apply Z.ltb_ge. lia.
  - intros other t Hother. unfold is_fresh, write. now rewrite Hother.
Qed.

(** X17: the timing of a cache key is the second field of its file name,
    the fields being separated by underscores. For a file
    [first_second_rest] of the directory of file locations (which is
    not the directory of availability), the time-to-live is
    [FRESH[second]["file_locs"]]; for one of the directory of
    availability it is [FRESH[second]["start"]] as soon as the name holds
    [start] anywhere, whatever else it holds. *)
Theorem get_fresh_parameter_second_field (mc : config) (first second rest : str) :
  forallb (fun c => negb (Ascii.eqb c "_")) first = true ->
  forallb (fun c => negb (Ascii.eqb c "_")) second = true ->
  (str_eqb (CACHE_PATH_FILE_LOCS mc) (CACHE_PATH_AVAILABILITY mc) = false ->
   get_fresh_parameter mc
     (Path (CACHE_PATH_FILE_LOCS mc) (first ++ "_"%char :: second ++ "_"%char :: rest))
   = fresh_kind mc second $"file_locs")
  /\ (contains $"start" (first ++ "_"%char :: second ++ "_"%char :: rest) = true ->
      get_fresh_parameter mc
        (Path (CACHE_PATH_AVAILABILITY mc)
              (first ++ "_"%char :: second ++ "_"%char :: rest))
      = fresh_kind mc second $"start").
Proof.
  intros H1 H2. unfold get_fresh_parameter. cbn [parent name]. split.
  - intros ->. rewrite str_eqb_refl, (item1_second_field _ _ _ _ H1 H2).
    reflexivity.
  - intros ->. rewrite str_eqb_refl, (item1_second_field _ _ _ _ H1 H2).
    reflexivity.
Qed.

Lemma get_fresh_parameter_second_field_witness :
  get_fresh_parameter mc_example
    (Path $"/cache/file_locs" $"CBOFS_nowcast_2022-07-01_is-forecast_False.yaml")
  = Ok (4 * HOUR)
  /\ get_fresh_parameter mc_example
       (Path $"/cache/availability" $"CBOFS_forecast_end_of_restart.yaml")
     = Ok (24 * HOUR).
Proof.
  split.
  - refine (eq_trans
              (proj1 (get_fresh_parameter_second_field mc_example $"CBOFS" $"nowcast"
                        $"2022-07-01_is-forecast_False.yaml" _ _) _) _);
      reflexivity.
  - refine (eq_trans
              (proj2 (get_fresh_parameter_second_field mc_example $"CBOFS" $"forecast"
                        $"end_of_restart.yaml" _ _) _) _);
      reflexivity.
Defined.
